(** * AgentWallet: policy-constrained payment ledger

    A shallow embedding of the Solidity contract [AgentWallet] (with its
    [ReentrancyGuard] base and the [TestUSDC] token of the test suite) and
    the properties of its authorization pipeline.

    Conventions of the embedding:
    - [uint256], [uint64] and [address] values are binary naturals [N];
      checked arithmetic (Solidity 0.8) reverts with [Panic 0x11] when a
      result leaves the 256-bit range, explicit narrowing [uint64(x)] is
      [x mod 2^64];
    - a Solidity [mapping] is a [gmap] read with the type's zero value as
      default;
    - contract code runs in a state-and-revert monad over the [world]
      (wallet storage, token ledger, event log, trace of outgoing calls);
      a revert carries the state reached when it was raised, and the
      message-call boundary ([frame]) discards that state, which is how the
      EVM rolls a failed call back;
    - the code of a merchant that the wallet calls is unknown: it is a
      finite tree of further calls into the wallet and the token, each in a
      frame of its own;
    - the platform owner of the [Ownable] base is left out: no operation of
      the ledger reads it.

    The file has three parts: the contract and its environment, the
    vocabulary of the statements with the concrete scenarios, and the
    proofs, one section per property. *)

From Stdlib Require Import NArith Lia.
From stdpp Require Import gmap strings list.

Local Open Scope N_scope.

Definition address := N.
Definition bytes := list Byte.byte.

Definition MAX_UINT256 : N := 2 ^ 256 - 1.
Definition uint64 (x : N) : N := x mod 2 ^ 64.
Definition ONE_DAY : N := 86400.

(** Reading a Solidity mapping: absent keys hold the zero value [z]. *)
Definition mget `{Countable K} {V} (z : V) (m : gmap K V) (k : K) : V :=
  default z (m !! k).
Arguments mget : simpl never.

(** * Values, errors and the token *)

(** ** Errors *)

Inductive error : Type :=
| AgentWallet__AgentNotFound
| AgentWallet__NotAgentOwner
| AgentWallet__NotAgent
| AgentWallet__PolicyInactive
| AgentWallet__MerchantNotAllowed
| AgentWallet__PerTxLimitExceeded
| AgentWallet__DailyLimitExceeded
| AgentWallet__InsufficientBalance
| AgentWallet__InvalidAddress
| AgentWallet__InvalidAmount
| AgentWallet__InvalidLimits
| Error (reason : string)
| Panic (code : N).

Arguments Error reason%_string.

#[global] Instance error_eq_dec : EqDecision error.
Proof. solve_decision. Defined.

(** The kinds the specification names for the two [require] families. *)
Definition ReentrantCall : error := Error "ReentrancyGuard: reentrant call".
Definition MerchantCallFailed : error := Error "Merchant call failed".

(** ** The token of the test suite *)

Module TestUSDC.

Record storage : Type := {
  _balances : gmap address N;
  _allowances : gmap (address * address) N
}.

Definition empty : storage := {| _balances := ∅; _allowances := ∅ |}.

Definition balanceOf (s : storage) (account : address) : N :=
  mget 0 (_balances s) account.

Definition allowance (s : storage) (owner spender : address) : N :=
  mget 0 (_allowances s) (owner, spender).

Definition set_balance (account : address) (v : N) (s : storage) : storage :=
  {| _balances := <[account := v]> (_balances s);
     _allowances := _allowances s |}.

Definition set_allowance (owner spender : address) (v : N) (s : storage)
  : storage :=
  {| _balances := _balances s;
     _allowances := <[(owner, spender) := v]> (_allowances s) |}.

Definition mint (to amount : N) (s : storage) : error + storage :=
  if balanceOf s to + amount <=? MAX_UINT256
  then inr (set_balance to (balanceOf s to + amount) s)
  else inl (Panic 17).

Definition _transfer (from to amount : N) (s : storage) : error + storage :=
  if balanceOf s from <? amount then inl (Error "balance")
  else
    let s1 := set_balance from (balanceOf s from - amount) s in
    if balanceOf s1 to + amount <=? MAX_UINT256
    then inr (set_balance to (balanceOf s1 to + amount) s1)
    else inl (Panic 17).

Definition transfer (sender to amount : N) (s : storage)
  : error + (bool * storage) :=
  match _transfer sender to amount s with
  | inl e => inl e
  | inr s' => inr (true, s')
  end.

Definition transferFrom (sender from to amount : N) (s : storage)
  : error + (bool * storage) :=
  let currentAllowance := allowance s from sender in
  if currentAllowance <? amount then inl (Error "allowance")
  else
    match _transfer from to amount
            (set_allowance from sender (currentAllowance - amount) s) with
    | inl e => inl e
    | inr s' => inr (true, s')
    end.

Definition approve (sender spender amount : N) (s : storage)
  : error + (bool * storage) :=
  inr (true, set_allowance sender spender amount s).

End TestUSDC.

(** ** Data model of the wallet *)

Record Policy : Type := {
  active : bool;
  dailyLimit : N;
  perTxLimit : N;
  spentToday : N;
  lastReset : N
}.

Record AgentConfig : Type := {
  owner : address;
  agent : address;
  policy : Policy
}.

Record Subscription : Type := {
  merchant : address;
  amountPerPeriod : N;
  periodSeconds : N;
  nextExecutionAt : N;
  sub_active : bool
}.

Definition zero_policy : Policy :=
  {| active := false; dailyLimit := 0; perTxLimit := 0; spentToday := 0;
     lastReset := 0 |}.
Definition zero_agent : AgentConfig :=
  {| owner := 0; agent := 0; policy := zero_policy |}.
Definition zero_subscription : Subscription :=
  {| merchant := 0; amountPerPeriod := 0; periodSeconds := 0;
     nextExecutionAt := 0; sub_active := false |}.

Inductive event : Type :=
| AgentCreated (agentId : N) (owner agent : address)
| AgentUpdated (agentId : N) (newAgent : address)
| AgentPaused (agentId : N) (active : bool)
| PolicyLimitsUpdated (agentId dailyLimit perTxLimit : N)
| MerchantWhitelistUpdated (agentId : N) (merchant : address) (allowed : bool)
| Deposit (agentId amount newBalance : N)
| Withdraw (agentId amount newBalance : N)
| EmergencyWithdraw (agentId amount : N)
| AgentPayment (agentId : N) (merchant : address) (amount : N) (data : bytes)
| DailySpendReset (agentId : N)
| SubscriptionCreated (agentId subscriptionId : N) (merchant : address)
| SubscriptionExecuted (agentId subscriptionId amount : N)
| SubscriptionStatusChanged (agentId subscriptionId : N) (active : bool).

(** Calls that leave the wallet, in the order they are made. *)
Inductive interaction : Type :=
| usdc_transfer (to : address) (amount : N)
| usdc_transferFrom (from to : address) (amount : N)
| usdc_approve (spender : address) (amount : N)
| usdc_allowance (owner spender : address)
| low_level_call (target : address) (data : bytes).

Definition _NOT_ENTERED : N := 1.
Definition _ENTERED : N := 2.

Record storage : Type := {
  _status : N;
  nextAgentId : N;
  _agents : gmap N AgentConfig;
  _merchantWhitelist : gmap (N * address) bool;
  _balances : gmap N N;
  _subscriptions : gmap (N * N) Subscription;
  _nextSubscriptionId : gmap N N
}.

Record world : Type := {
  wallet : storage;
  usdc : TestUSDC.storage;
  events : list event;
  interactions : list interaction
}.

(** State right after the constructors ran. *)
Definition deployed : world :=
  {| wallet := {| _status := _NOT_ENTERED; nextAgentId := 0; _agents := ∅;
                  _merchantWhitelist := ∅; _balances := ∅;
                  _subscriptions := ∅; _nextSubscriptionId := ∅ |};
     usdc := TestUSDC.empty;
     events := [];
     interactions := [] |}.

(** Reads of the mappings. *)
Definition agent_at (w : world) (agentId : N) : AgentConfig :=
  mget zero_agent (_agents (wallet w)) agentId.
Definition policy_at (w : world) (agentId : N) : Policy :=
  policy (agent_at w agentId).
Definition whitelisted (w : world) (agentId : N) (m : address) : bool :=
  mget false (_merchantWhitelist (wallet w)) (agentId, m).
Definition balance_at (w : world) (agentId : N) : N :=
  mget 0 (_balances (wallet w)) agentId.
Definition subscription_at (w : world) (agentId subId : N) : Subscription :=
  mget zero_subscription (_subscriptions (wallet w)) (agentId, subId).
Definition next_subscription_at (w : world) (agentId : N) : N :=
  mget 0 (_nextSubscriptionId (wallet w)) agentId.

(** Writes. *)
Definition with_wallet (f : storage -> storage) (w : world) : world :=
  {| wallet := f (wallet w); usdc := usdc w; events := events w;
     interactions := interactions w |}.
Definition with_usdc (t : TestUSDC.storage) (w : world) : world :=
  {| wallet := wallet w; usdc := t; events := events w;
     interactions := interactions w |}.
Definition log_event (e : event) (w : world) : world :=
  {| wallet := wallet w; usdc := usdc w; events := events w ++ [e];
     interactions := interactions w |}.
Definition log_interaction (i : interaction) (w : world) : world :=
  {| wallet := wallet w; usdc := usdc w; events := events w;
     interactions := interactions w ++ [i] |}.

Definition set_status (v : N) (s : storage) : storage :=
  {| _status := v; nextAgentId := nextAgentId s; _agents := _agents s;
     _merchantWhitelist := _merchantWhitelist s; _balances := _balances s;
     _subscriptions := _subscriptions s;
     _nextSubscriptionId := _nextSubscriptionId s |}.
Definition set_nextAgentId (v : N) (s : storage) : storage :=
  {| _status := _status s; nextAgentId := v; _agents := _agents s;
     _merchantWhitelist := _merchantWhitelist s; _balances := _balances s;
     _subscriptions := _subscriptions s;
     _nextSubscriptionId := _nextSubscriptionId s |}.
Definition set_agent (agentId : N) (c : AgentConfig) (s : storage) : storage :=
  {| _status := _status s; nextAgentId := nextAgentId s;
     _agents := <[agentId := c]> (_agents s);
     _merchantWhitelist := _merchantWhitelist s; _balances := _balances s;
     _subscriptions := _subscriptions s;
     _nextSubscriptionId := _nextSubscriptionId s |}.
Definition set_whitelist (agentId : N) (m : address) (b : bool) (s : storage)
  : storage :=
  {| _status := _status s; nextAgentId := nextAgentId s; _agents := _agents s;
     _merchantWhitelist := <[(agentId, m) := b]> (_merchantWhitelist s);
     _balances := _balances s; _subscriptions := _subscriptions s;
     _nextSubscriptionId := _nextSubscriptionId s |}.
Definition set_balance (agentId v : N) (s : storage) : storage :=
  {| _status := _status s; nextAgentId := nextAgentId s; _agents := _agents s;
     _merchantWhitelist := _merchantWhitelist s;
     _balances := <[agentId := v]> (_balances s);
     _subscriptions := _subscriptions s;
     _nextSubscriptionId := _nextSubscriptionId s |}.
Definition set_subscription (agentId subId : N) (x : Subscription)
  (s : storage) : storage :=
  {| _status := _status s; nextAgentId := nextAgentId s; _agents := _agents s;
     _merchantWhitelist := _merchantWhitelist s; _balances := _balances s;
     _subscriptions := <[(agentId, subId) := x]> (_subscriptions s);
     _nextSubscriptionId := _nextSubscriptionId s |}.
Definition set_nextSubscriptionId (agentId v : N) (s : storage) : storage :=
  {| _status := _status s; nextAgentId := nextAgentId s; _agents := _agents s;
     _merchantWhitelist := _merchantWhitelist s; _balances := _balances s;
     _subscriptions := _subscriptions s;
     _nextSubscriptionId := <[agentId := v]> (_nextSubscriptionId s) |}.

Definition set_policy (p : Policy) (c : AgentConfig) : AgentConfig :=
  {| owner := owner c; agent := agent c; policy := p |}.

(** ** The execution monad *)

Inductive outcome (A : Type) : Type :=
| Done (a : A) (w : world)
| Reverted (e : error) (w : world).
Arguments Done {A} a w.
Arguments Reverted {A} e w.

Definition M (A : Type) : Type := world -> outcome A.

Definition ret {A} (a : A) : M A := fun w => Done a w.
Definition bind {A B} (m : M A) (k : A -> M B) : M B :=
  fun w => match m w with
           | Done a w' => k a w'
           | Reverted e w' => Reverted e w'
           end.
Definition revert {A} (e : error) : M A := fun w => Reverted e w.
Definition get : M world := fun w => Done w w.
Definition modify (f : world -> world) : M unit := fun w => Done tt (f w).

Notation "'let*' x ':=' m 'in' k" := (bind m (fun x => k))
  (at level 10, x name, m at level 100, k at level 200).
Notation "'exec*' m 'in' k" := (bind m (fun _ => k))
  (at level 10, m at level 100, k at level 200).

Definition require (c : bool) (reason : string) : M unit :=
  if c then ret tt else revert (Error reason).
Definition revert_if (c : bool) (e : error) : M unit :=
  if c then revert e else ret tt.
Definition emit (e : event) : M unit := modify (log_event e).
Definition sstore (f : storage -> storage) : M unit := modify (with_wallet f).

(** Checked 256-bit arithmetic. *)
Definition add256 (a b : N) : M N :=
  if a + b <=? MAX_UINT256 then ret (a + b) else revert (Panic 17).
Definition sub256 (a b : N) : M N :=
  if b <=? a then ret (a - b) else revert (Panic 17).

(** What survives a message call: the result, and the state only when the
    call did not revert. *)
Definition frame {A} (m : M A) (w : world) : (error + A) * world :=
  match m w with
  | Done a w' => (inr a, w')
  | Reverted e _ => (inl e, w)
  end.

(** * The contract *)

(** What the execution environment supplies to a call. *)
Record env : Type := {
  this : address;
  block_timestamp : N;
  msg_sender : address
}.

Section Contract.

Variable E : env.

(** [merchant.call(data)]: the callee runs on the current state and either
    returns with a new state or fails, its own changes undone. *)
Variable call : address -> bytes -> world -> option world.

(** *** Calls to the token, made with the wallet as sender *)

Definition usdc_call {A} (i : interaction)
  (op : TestUSDC.storage -> error + (A * TestUSDC.storage)) : M A :=
  fun w =>
    let w1 := log_interaction i w in
    match op (usdc w1) with
    | inl e => Reverted e w1
    | inr (a, t) => Done a (with_usdc t w1)
    end.

Definition usdc_do_transfer (to amount : N) : M bool :=
  usdc_call (usdc_transfer to amount) (TestUSDC.transfer (this E) to amount).
Definition usdc_do_transferFrom (from to amount : N) : M bool :=
  usdc_call (usdc_transferFrom from to amount)
    (TestUSDC.transferFrom (this E) from to amount).
Definition usdc_do_approve (spender amount : N) : M bool :=
  usdc_call (usdc_approve spender amount)
    (TestUSDC.approve (this E) spender amount).
Definition usdc_get_allowance (owner spender : address) : M N :=
  usdc_call (usdc_allowance owner spender)
    (fun t => inr (TestUSDC.allowance t owner spender, t)).

Definition merchant_call (target : address) (data : bytes) : M bool :=
  fun w =>
    let w1 := log_interaction (low_level_call target data) w in
    match call target data w1 with
    | Some w2 => Done true w2
    | None => Done false w1
    end.

(** *** Modifiers and internal helpers *)

Definition nonReentrant {A} (body : M A) : M A :=
  let* w := get in
  exec* require (negb (_status (wallet w) =? _ENTERED))
          "ReentrancyGuard: reentrant call" in
  exec* sstore (set_status _ENTERED) in
  let* r := body in
  exec* sstore (set_status _NOT_ENTERED) in
  ret r.

Definition agentExists (agentId : N) : M unit :=
  let* w := get in
  revert_if (owner (agent_at w agentId) =? 0) AgentWallet__AgentNotFound.

Definition onlyAgentOwner (agentId : N) : M unit :=
  let* w := get in
  revert_if (negb (owner (agent_at w agentId) =? msg_sender E))
    AgentWallet__NotAgentOwner.

Definition onlyAgent (agentId : N) : M unit :=
  let* w := get in
  revert_if (negb (agent (agent_at w agentId) =? msg_sender E))
    AgentWallet__NotAgent.

(** Writes through [Policy storage policy = _agents[agentId].policy]. *)
Definition store_policy (agentId : N) (f : Policy -> Policy) : M unit :=
  let* w := get in
  let c := agent_at w agentId in
  sstore (set_agent agentId (set_policy (f (policy c)) c)).

(** [lastReset] is a [uint64], so the sum below cannot leave 256 bits. *)
Definition _resetIfNeeded (agentId : N) : M unit :=
  let* w := get in
  if lastReset (policy_at w agentId) + ONE_DAY <=? block_timestamp E then
    exec* store_policy agentId (fun p =>
            {| active := active p; dailyLimit := dailyLimit p;
               perTxLimit := perTxLimit p; spentToday := 0;
               lastReset := uint64 (block_timestamp E) |}) in
    emit (DailySpendReset agentId)
  else ret tt.

Definition _validateLimits (dailyLimit perTxLimit : N) : M unit :=
  exec* revert_if ((dailyLimit =? 0) || (perTxLimit =? 0))
          AgentWallet__InvalidLimits in
  revert_if (dailyLimit <? perTxLimit) AgentWallet__InvalidLimits.

(** *** Agent lifecycle *)

Definition createAgent (agentAddress dailyLimit perTxLimit : N) : M N :=
  exec* revert_if (agentAddress =? 0) AgentWallet__InvalidAddress in
  exec* _validateLimits dailyLimit perTxLimit in
  let* w := get in
  let* agentId := add256 (nextAgentId (wallet w)) 1 in
  exec* sstore (set_nextAgentId agentId) in
  let policy :=
    {| active := true; dailyLimit := dailyLimit; perTxLimit := perTxLimit;
       spentToday := 0; lastReset := uint64 (block_timestamp E) |} in
  exec* sstore (set_agent agentId
          {| owner := msg_sender E; agent := agentAddress;
             policy := policy |}) in
  exec* emit (AgentCreated agentId (msg_sender E) agentAddress) in
  ret agentId.

Definition setAgentAddress (agentId newAgent : N) : M unit :=
  exec* agentExists agentId in
  exec* onlyAgentOwner agentId in
  exec* revert_if (newAgent =? 0) AgentWallet__InvalidAddress in
  let* w := get in
  let c := agent_at w agentId in
  exec* sstore (set_agent agentId
          {| owner := owner c; agent := newAgent; policy := policy c |}) in
  emit (AgentUpdated agentId newAgent).

(** *** Funding management *)

Definition deposit (agentId amount : N) : M unit :=
  exec* agentExists agentId in
  exec* onlyAgentOwner agentId in
  nonReentrant (
    exec* revert_if (amount =? 0) AgentWallet__InvalidAmount in
    let* success := usdc_do_transferFrom (msg_sender E) (this E) amount in
    exec* require success "USDC: transferFrom failed" in
    let* w := get in
    let* b := add256 (balance_at w agentId) amount in
    exec* sstore (set_balance agentId b) in
    emit (Deposit agentId amount b)).

Definition withdraw (agentId amount : N) : M unit :=
  exec* agentExists agentId in
  exec* onlyAgentOwner agentId in
  nonReentrant (
    exec* revert_if (amount =? 0) AgentWallet__InvalidAmount in
    let* w := get in
    exec* revert_if (balance_at w agentId <? amount)
            AgentWallet__InsufficientBalance in
    let* b := sub256 (balance_at w agentId) amount in
    exec* sstore (set_balance agentId b) in
    let* success := usdc_do_transfer (msg_sender E) amount in
    exec* require success "USDC: transfer failed" in
    let* w' := get in
    emit (Withdraw agentId amount (balance_at w' agentId))).

Definition emergencyWithdraw (agentId : N) : M unit :=
  exec* agentExists agentId in
  exec* onlyAgentOwner agentId in
  nonReentrant (
    let* w := get in
    let balance := balance_at w agentId in
    exec* sstore (set_balance agentId 0) in
    let* success := usdc_do_transfer (msg_sender E) balance in
    exec* require success "USDC: transfer failed" in
    emit (EmergencyWithdraw agentId balance)).

(** *** Policy management *)

Definition setPolicyActive (agentId : N) (active' : bool) : M unit :=
  exec* agentExists agentId in
  exec* onlyAgentOwner agentId in
  exec* store_policy agentId (fun p =>
          {| active := active'; dailyLimit := dailyLimit p;
             perTxLimit := perTxLimit p; spentToday := spentToday p;
             lastReset := lastReset p |}) in
  emit (AgentPaused agentId active').

Definition updateLimits (agentId newDailyLimit newPerTxLimit : N) : M unit :=
  exec* agentExists agentId in
  exec* onlyAgentOwner agentId in
  exec* _validateLimits newDailyLimit newPerTxLimit in
  exec* _resetIfNeeded agentId in
  exec* store_policy agentId (fun p =>
          {| active := active p; dailyLimit := newDailyLimit;
             perTxLimit := newPerTxLimit; spentToday := spentToday p;
             lastReset := lastReset p |}) in
  let* w := get in
  exec* (if newDailyLimit <? spentToday (policy_at w agentId) then
           store_policy agentId (fun p =>
             {| active := active p; dailyLimit := dailyLimit p;
                perTxLimit := perTxLimit p; spentToday := newDailyLimit;
                lastReset := lastReset p |})
         else ret tt) in
  emit (PolicyLimitsUpdated agentId newDailyLimit newPerTxLimit).

Definition setMerchantWhitelist (agentId : N) (merchant : address)
  (allowed : bool) : M unit :=
  exec* agentExists agentId in
  exec* onlyAgentOwner agentId in
  exec* revert_if (merchant =? 0) AgentWallet__InvalidAddress in
  exec* sstore (set_whitelist agentId merchant allowed) in
  emit (MerchantWhitelistUpdated agentId merchant allowed).

(** *** Spending *)

Definition _processPayment (agentId : N) (merchant : address) (amount : N)
  (data : bytes) : M unit :=
  exec* _resetIfNeeded agentId in
  let* w := get in
  let policy := policy_at w agentId in
  exec* revert_if (negb (active policy)) AgentWallet__PolicyInactive in
  exec* revert_if (negb (whitelisted w agentId merchant))
          AgentWallet__MerchantNotAllowed in
  exec* revert_if (perTxLimit policy <? amount)
          AgentWallet__PerTxLimitExceeded in
  let* total := add256 (spentToday policy) amount in
  exec* revert_if (dailyLimit policy <? total)
          AgentWallet__DailyLimitExceeded in
  exec* revert_if (balance_at w agentId <? amount)
          AgentWallet__InsufficientBalance in
  let* b := sub256 (balance_at w agentId) amount in
  exec* sstore (set_balance agentId b) in
  let* spent := add256 (spentToday policy) amount in
  exec* store_policy agentId (fun p =>
          {| active := active p; dailyLimit := dailyLimit p;
             perTxLimit := perTxLimit p; spentToday := spent;
             lastReset := lastReset p |}) in
  exec* (match data with
         | [] =>
             let* success := usdc_do_transfer merchant amount in
             require success "USDC: transfer failed"
         | _ :: _ =>
             let* stale := usdc_get_allowance (this E) merchant in
             exec* (if negb (stale =? 0) then
                      let* r := usdc_do_approve merchant 0 in
                      require r "USDC: reset approve failed"
                    else ret tt) in
             let* r := usdc_do_approve merchant amount in
             exec* require r "USDC: approve failed" in
             let* ok := merchant_call merchant data in
             require ok "Merchant call failed"
         end) in
  emit (AgentPayment agentId merchant amount data).

Definition pay (agentId : N) (merchant : address) (amount : N)
  (data : bytes) : M unit :=
  exec* agentExists agentId in
  exec* onlyAgent agentId in
  nonReentrant (
    exec* revert_if (merchant =? 0) AgentWallet__InvalidAddress in
    exec* revert_if (amount =? 0) AgentWallet__InvalidAmount in
    _processPayment agentId merchant amount data).

(** *** Subscription helpers *)

Definition createSubscription (agentId : N) (merchant : address)
  (amountPerPeriod periodSeconds firstExecutionAt : N) : M N :=
  exec* agentExists agentId in
  exec* onlyAgentOwner agentId in
  exec* revert_if (merchant =? 0) AgentWallet__InvalidAddress in
  let* w := get in
  exec* revert_if (negb (whitelisted w agentId merchant))
          AgentWallet__MerchantNotAllowed in
  exec* revert_if (amountPerPeriod =? 0) AgentWallet__InvalidAmount in
  exec* revert_if (periodSeconds <? 60) AgentWallet__InvalidAmount in
  let* subscriptionId := add256 (next_subscription_at w agentId) 1 in
  exec* sstore (set_nextSubscriptionId agentId subscriptionId) in
  exec* sstore (set_subscription agentId subscriptionId
          {| merchant := merchant; amountPerPeriod := amountPerPeriod;
             periodSeconds := periodSeconds;
             nextExecutionAt :=
               if firstExecutionAt =? 0 then uint64 (block_timestamp E)
               else firstExecutionAt;
             sub_active := true |}) in
  exec* emit (SubscriptionCreated agentId subscriptionId merchant) in
  ret subscriptionId.

Definition setSubscriptionStatus (agentId subscriptionId : N)
  (active' : bool) : M unit :=
  exec* agentExists agentId in
  exec* onlyAgentOwner agentId in
  let* w := get in
  let sub := subscription_at w agentId subscriptionId in
  exec* require (negb (merchant sub =? 0)) "Subscription not found" in
  exec* sstore (set_subscription agentId subscriptionId
          {| merchant := merchant sub;
             amountPerPeriod := amountPerPeriod sub;
             periodSeconds := periodSeconds sub;
             nextExecutionAt := nextExecutionAt sub;
             sub_active := active' |}) in
  emit (SubscriptionStatusChanged agentId subscriptionId active').

Definition executeSubscription (agentId subscriptionId : N) (data : bytes)
  : M unit :=
  exec* agentExists agentId in
  nonReentrant (
    let* w := get in
    let sub := subscription_at w agentId subscriptionId in
    exec* require (sub_active sub) "Subscription inactive" in
    exec* require (negb (merchant sub =? 0)) "Subscription not found" in
    exec* require (nextExecutionAt sub <=? block_timestamp E)
            "Too early" in
    let* next := add256 (block_timestamp E) (periodSeconds sub) in
    exec* sstore (set_subscription agentId subscriptionId
            {| merchant := merchant sub;
               amountPerPeriod := amountPerPeriod sub;
               periodSeconds := periodSeconds sub;
               nextExecutionAt := uint64 next;
               sub_active := sub_active sub |}) in
    exec* _processPayment agentId (merchant sub) (amountPerPeriod sub)
            data in
    let* w' := get in
    emit (SubscriptionExecuted agentId subscriptionId
            (amountPerPeriod (subscription_at w' agentId subscriptionId)))).

(** *** View helpers *)

Definition view {A} (agentId : N) (f : world -> A) (w : world) : error + A :=
  fst (frame (exec* agentExists agentId in let* w' := get in ret (f w')) w).

Definition agent_view (agentId : N) : world -> error + AgentConfig :=
  view agentId (fun w => agent_at w agentId).
Definition balanceOf (agentId : N) : world -> error + N :=
  view agentId (fun w => balance_at w agentId).
Definition isMerchantWhitelisted (agentId : N) (merchant : address)
  : world -> error + bool :=
  view agentId (fun w => whitelisted w agentId merchant).
Definition spentToday_view (agentId : N) : world -> error + N :=
  view agentId (fun w =>
    let policy := policy_at w agentId in
    if lastReset policy + ONE_DAY <=? block_timestamp E then 0
    else spentToday policy).
Definition subscription_view (agentId subscriptionId : N)
  : world -> error + Subscription :=
  view agentId (fun w => subscription_at w agentId subscriptionId).
Definition nextSubscriptionId (agentId : N) : world -> error + N :=
  view agentId (fun w => next_subscription_at w agentId).

End Contract.

(** ** The environment: transactions and what called merchants do *)

Inductive wallet_call : Type :=
| call_createAgent (agentAddress dailyLimit perTxLimit : N)
| call_setAgentAddress (agentId newAgent : N)
| call_deposit (agentId amount : N)
| call_withdraw (agentId amount : N)
| call_emergencyWithdraw (agentId : N)
| call_setPolicyActive (agentId : N) (active : bool)
| call_updateLimits (agentId newDailyLimit newPerTxLimit : N)
| call_setMerchantWhitelist (agentId : N) (merchant : address) (allowed : bool)
| call_pay (agentId : N) (merchant : address) (amount : N) (data : bytes)
| call_createSubscription (agentId : N) (merchant : address)
    (amountPerPeriod periodSeconds firstExecutionAt : N)
| call_setSubscriptionStatus (agentId subscriptionId : N) (active : bool)
| call_executeSubscription (agentId subscriptionId : N) (data : bytes).

Inductive token_call : Type :=
| call_mint (to amount : N)
| call_transfer (to amount : N)
| call_transferFrom (from to amount : N)
| call_approve (spender amount : N).

(** One message call made by some account. A call into the wallet names
    what the merchant does if the wallet invokes it during that call: the
    calls it makes in turn ([callee]) and whether it then returns normally
    ([ok]). *)
#[warnings="-register-all"]
Inductive action : Type :=
| on_token (sender : address) (c : token_call)
| on_wallet (sender : address) (c : wallet_call) (callee : list action)
    (ok : bool).

Definition drop {A} (m : M A) : M unit := exec* m in ret tt.

Definition dispatch (E : env) (call : address -> bytes -> world -> option world)
  (c : wallet_call) : M unit :=
  match c with
  | call_createAgent a d p => drop (createAgent E a d p)
  | call_setAgentAddress i a => setAgentAddress E i a
  | call_deposit i x => deposit E i x
  | call_withdraw i x => withdraw E i x
  | call_emergencyWithdraw i => emergencyWithdraw E i
  | call_setPolicyActive i b => setPolicyActive E i b
  | call_updateLimits i d p => updateLimits E i d p
  | call_setMerchantWhitelist i m b => setMerchantWhitelist E i m b
  | call_pay i m x data => pay E call i m x data
  | call_createSubscription i m x p f => drop (createSubscription E i m x p f)
  | call_setSubscriptionStatus i s b => setSubscriptionStatus E i s b
  | call_executeSubscription i s data => executeSubscription E call i s data
  end.

Definition token_step (sender : address) (c : token_call)
  (t : TestUSDC.storage) : error + TestUSDC.storage :=
  match c with
  | call_mint to x => TestUSDC.mint to x t
  | call_transfer to x =>
      match TestUSDC.transfer sender to x t with
      | inl e => inl e | inr (_, t') => inr t' end
  | call_transferFrom from to x =>
      match TestUSDC.transferFrom sender from to x t with
      | inl e => inl e | inr (_, t') => inr t' end
  | call_approve spender x =>
      match TestUSDC.approve sender spender x t with
      | inl e => inl e | inr (_, t') => inr t' end
  end.

Definition token_frame (sender : address) (c : token_call) (w : world)
  : (error + unit) * world :=
  match token_step sender c (usdc w) with
  | inl e => (inl e, w)
  | inr t => (inr tt, with_usdc t w)
  end.

(** [run self now a w]: the wallet deployed at [self] and its token, in
    state [w], receive the call [a] in a block stamped [now]. *)
Fixpoint run (self : address) (now : N) (a : action) (w : world)
  : (error + unit) * world :=
  match a with
  | on_token sender c => token_frame sender c w
  | on_wallet sender c callee ok =>
      frame
        (dispatch
           {| this := self; block_timestamp := now; msg_sender := sender |}
           (fun _ _ w1 =>
              if ok then
                Some (fold_left (fun w2 a' => snd (run self now a' w2))
                        callee w1)
              else None)
           c)
        w
  end.

Definition run_all (self : address) (txs : list (N * action)) (w : world)
  : world :=
  fold_left (fun w' tx => snd (run self tx.1 tx.2 w')) txs w.

(** * Vocabulary of the statements *)

(** ** Runs *)

(** All calls into the wallet made by an action, nested ones included,
    satisfy [P]. *)
Fixpoint all_calls (P : address -> wallet_call -> bool) (a : action) : bool :=
  match a with
  | on_token _ _ => true
  | on_wallet sender c callee _ => P sender c && forallb (all_calls P) callee
  end.

(** With [strict], the caller of every [createAgent] is a non-null
    identity; without, nothing is asked of the calls. *)
Definition creator_known (strict : bool) (sender : address)
  (c : wallet_call) : bool :=
  match c with
  | call_createAgent _ _ _ => negb strict || negb (sender =? 0)
  | _ => true
  end.

(** ** The daily window *)

(** [now >= windowStart + 24h]. *)
Definition window_due (now : N) (p : Policy) : bool :=
  lastReset p + ONE_DAY <=? now.

(** The policy a due reset leaves behind. *)
Definition reset_policy (now : N) (p : Policy) : Policy :=
  if window_due now p then
    {| active := active p; dailyLimit := dailyLimit p;
       perTxLimit := perTxLimit p; spentToday := 0; lastReset := uint64 now |}
  else p.

(** ** The reentrancy latch *)

(** The entry points that carry [nonReentrant]. *)
Definition guarded (c : wallet_call) : bool :=
  match c with
  | call_deposit _ _ | call_withdraw _ _ | call_emergencyWithdraw _
  | call_pay _ _ _ _ | call_executeSubscription _ _ _ => true
  | _ => false
  end.

(** The modifiers written before [nonReentrant] on a guarded entry point. *)
Definition access_ok (E : env) (c : wallet_call) (w : world) : bool :=
  match c with
  | call_deposit i _ | call_withdraw i _ | call_emergencyWithdraw i =>
      negb (owner (agent_at w i) =? 0)
      && (owner (agent_at w i) =? msg_sender E)
  | call_pay i _ _ _ =>
      negb (owner (agent_at w i) =? 0)
      && (agent (agent_at w i) =? msg_sender E)
  | call_executeSubscription i _ _ => negb (owner (agent_at w i) =? 0)
  | _ => false
  end.

(** The errors of the modifiers that run before the body of a guarded entry
    point: the access checks and the latch itself. *)
Definition raised_before_latch (e : error) : Prop :=
  e = AgentWallet__AgentNotFound \/ e = AgentWallet__NotAgentOwner \/
  e = AgentWallet__NotAgent \/ e = ReentrantCall.

(** A callee that may only run while the latch is set. *)
Definition while_entered (call : address -> bytes -> world -> option world)
  : address -> bytes -> world -> option world :=
  fun t d w1 => if _status (wallet w1) =? _ENTERED then call t d w1 else None.

(** The latch has the same position before and after. *)
Definition latch_kept (w w' : world) : Prop :=
  _status (wallet w) = _NOT_ENTERED \/ _status (wallet w) = _ENTERED ->
  _status (wallet w') = _status (wallet w).

(** ** The registry of agents *)

(** The invariant of a policy. *)
Definition policy_ok (p : Policy) : Prop :=
  0 < perTxLimit p /\ perTxLimit p <= dailyLimit p /\
  spentToday p <= dailyLimit p.

(** The ids allocated so far. *)
Definition registered (w : world) (agentId : N) : Prop :=
  1 <= agentId <= nextAgentId (wallet w).

(** Every allocated id holds a sound policy; every other id holds the zero
    record. *)
Record registry_ok (w : world) : Prop := {
  reg_policy : forall id, registered w id -> policy_ok (policy_at w id);
  reg_absent : forall id, ~ registered w id -> agent_at w id = zero_agent
}.

(** Every allocated id has an owner. *)
Definition owners_ok (w : world) : Prop :=
  forall id, registered w id -> owner (agent_at w id) <> 0.

(** Agents whose window is not due at [now] keep their [windowStart]. *)
Definition window_kept (now : N) (w w' : world) : Prop :=
  forall id, registered w id -> window_due now (policy_at w id) = false ->
             lastReset (policy_at w' id) = lastReset (policy_at w id).

(** What one call, run at time [now], preserves. *)
Record step_ok (strict : bool) (now : N) (w w' : world) : Prop := {
  step_registry : registry_ok w';
  step_owners : strict = true -> owners_ok w -> owners_ok w';
  step_next : nextAgentId (wallet w) <= nextAgentId (wallet w');
  step_window : window_kept now w w'
}.

(** A call made on a sound registry preserves all of it. *)
Definition steps (strict : bool) (now : N) (w w' : world) : Prop :=
  registry_ok w -> step_ok strict now w w'.

(** ** The window check *)

(** The state the window check leaves behind. *)
Definition after_reset (now agentId : N) (w : world) : world :=
  if window_due now (policy_at w agentId) then
    log_event (DailySpendReset agentId)
      (with_wallet
         (set_agent agentId
            (set_policy (reset_policy now (policy_at w agentId))
               (agent_at w agentId)))
         w)
  else w.

(** The errors of the five policy checks. *)
Definition policy_check_error (e : error) : Prop :=
  e = AgentWallet__PolicyInactive \/ e = AgentWallet__MerchantNotAllowed \/
  e = AgentWallet__PerTxLimitExceeded \/ e = AgentWallet__DailyLimitExceeded \/
  e = AgentWallet__InsufficientBalance.

(** ** The payment pipeline *)



(** ** Subscriptions *)

(** The subscription as [executeSubscription] stores it before it pays. *)
Definition advanced (now : N) (sub : Subscription) : Subscription :=
  {| merchant := merchant sub; amountPerPeriod := amountPerPeriod sub;
     periodSeconds := periodSeconds sub;
     nextExecutionAt := uint64 (now + periodSeconds sub);
     sub_active := sub_active sub |}.

(** * Scenarios *)

(** The accounts and the helper of the test suite. *)

Module Scenario.
Definition wallet_addr : address := 1000.
Definition agentOwner : address := 0xA11CE.
Definition agentAddress : address := 0xA91317.
Definition merchant_addr : address := 77.

Definition _createAgentWithBalance (amount : N) : list (N * action) :=
  [ (1, on_wallet agentOwner
          (call_createAgent agentAddress 1000000000 500000000) [] true);
    (1, on_token agentOwner (call_mint agentOwner amount));
    (1, on_token agentOwner (call_approve wallet_addr amount));
    (1, on_wallet agentOwner (call_deposit 1 amount) [] true) ].

(** [PullMerchant.charge(amount, invoiceId)] pulls its payment. *)
Definition charge (amount : N) : list action :=
  [ on_token merchant_addr
      (call_transferFrom wallet_addr merchant_addr amount) ].
End Scenario.

Module Unlimited.
Import Scenario.

(** An agent whose limits are the largest 256-bit value, after a first
    payment of 5. *)
Definition setup : list (N * action) :=
  [ (1, on_wallet agentOwner
          (call_createAgent agentAddress MAX_UINT256 MAX_UINT256) [] true);
    (1, on_token agentOwner (call_mint agentOwner 5));
    (1, on_token agentOwner (call_approve wallet_addr 5));
    (1, on_wallet agentOwner (call_deposit 1 5) [] true);
    (1, on_wallet agentOwner
          (call_setMerchantWhitelist 1 merchant_addr true) [] true);
    (1, on_wallet agentAddress (call_pay 1 merchant_addr 5 []) [] true) ].

Definition w : world := run_all wallet_addr setup deployed.

Definition second_payment : action :=
  on_wallet agentAddress (call_pay 1 merchant_addr MAX_UINT256 []) [] true.
End Unlimited.

Module Reentry.
Import Scenario.

Definition funded : world :=
  run_all wallet_addr
    (_createAgentWithBalance 1000000 ++
     [ (1, on_wallet agentOwner
             (call_setMerchantWhitelist 1 merchant_addr true) [] true) ])
    deployed.

(** The latch as a callee finds it during a payment of agent 1. *)
Definition entered : world := with_wallet (set_status _ENTERED) funded.

Definition merchant_deposits : action :=
  on_wallet merchant_addr (call_deposit 1 5) [] true.

(** A merchant that, when invoked, tries to enter [deposit] and returns
    normally only if that attempt was refused with [expected]. *)
Definition probing (expected : error)
  : address -> bytes -> world -> option world :=
  fun _ _ w1 =>
    match fst (run wallet_addr 1 merchant_deposits w1) with
    | inl e => if decide (e = expected) then Some w1 else None
    | inr _ => None
    end.

Definition E : env :=
  {| this := wallet_addr; block_timestamp := 1; msg_sender := agentAddress |}.

End Reentry.

Module Refused.
Import Scenario.

(** The merchant holds the largest 256-bit amount of tokens, so the
    token's checked addition refuses any transfer to it. *)
Definition w : world :=
  run_all wallet_addr
    [ (1, on_token merchant_addr (call_mint merchant_addr MAX_UINT256)) ]
    Reentry.funded.

Definition E : env :=
  {| this := wallet_addr; block_timestamp := 1; msg_sender := agentAddress |}.

Definition payment : action :=
  on_wallet agentAddress (call_pay 1 merchant_addr 200000 []) [] true.
End Refused.

Module Late.
Import Scenario.

Definition stranger : address := 4242.

(** A subscription of 1000 every 60 seconds, first due at time 100. *)
Definition w : world :=
  run_all wallet_addr
    [ (1, on_wallet agentOwner
            (call_createSubscription 1 merchant_addr 1000 60 100) [] true) ]
    Reentry.funded.

Definition E : env :=
  {| this := wallet_addr; block_timestamp := 1000; msg_sender := stranger |}.

Definition execute : action :=
  on_wallet stranger (call_executeSubscription 1 1 []) [] true.
End Late.

Module Paying.
Import Scenario.
Definition E : env :=
  {| this := wallet_addr; block_timestamp := 1; msg_sender := agentAddress |}.
Definition owner_env (now : N) : env :=
  {| this := wallet_addr; block_timestamp := now; msg_sender := agentOwner |}.
Definition unlisted : address := 88.
Definition no_callee : address -> bytes -> world -> option world :=
  fun _ _ _ => None.
End Paying.

Module Drain.
Import Scenario.
Definition w : world :=
  run_all wallet_addr
    (_createAgentWithBalance 750000 ++
     [ (2, on_wallet agentOwner (call_setPolicyActive 1 false) [] true) ])
    deployed.
End Drain.

Module Corner.
Import Scenario.

(** Limits tightened to 300000 a day after the agent was funded, then a
    payment of 200000. *)
Definition tight : world :=
  run_all wallet_addr
    [ (1, on_wallet agentOwner (call_updateLimits 1 300000 250000) [] true);
      (1, on_wallet agentAddress (call_pay 1 merchant_addr 200000 []) [] true) ]
    Reentry.funded.

(** The agent of [Drain.w] on a token ledger that holds nothing for the
    wallet. *)
Definition unbacked : world := with_usdc TestUSDC.empty Drain.w.

(** A subscription record that is active and has no merchant. *)
Definition orphan : world :=
  with_wallet
    (set_subscription 1 9
       {| merchant := 0; amountPerPeriod := 1; periodSeconds := 60;
          nextExecutionAt := 0; sub_active := true |})
    Late.w.

Definition delegate_env (now : N) : env :=
  {| this := wallet_addr; block_timestamp := now; msg_sender := agentAddress |}.
End Corner.

(** The scenarios of the specification. *)
Module Tests.
Import Scenario.

Definition whitelist_merchant : N * action :=
  (1, on_wallet agentOwner
        (call_setMerchantWhitelist 1 merchant_addr true) [] true).

Definition created : world :=
  run_all wallet_addr
    [ (1, on_wallet agentOwner (call_createAgent agentAddress 1000000 250000)
            [] true) ]
    deployed.

Definition direct : world :=
  run_all wallet_addr
    (_createAgentWithBalance 1000000 ++
     [ whitelist_merchant;
       (1, on_wallet agentAddress (call_pay 1 merchant_addr 200000 [])
             [] true) ])
    deployed.

Definition pulled : world :=
  run_all wallet_addr
    (_createAgentWithBalance 500000 ++
     [ whitelist_merchant;
       (1, on_wallet agentAddress
             (call_pay 1 merchant_addr 100000 [Byte.x31])
             (charge 100000) true) ])
    deployed.

Definition next_day : world :=
  run_all wallet_addr
    (_createAgentWithBalance 2000000 ++
     [ whitelist_merchant;
       (1, on_wallet agentAddress (call_pay 1 merchant_addr 900000 [])
             [] true);
       (86402, on_wallet agentAddress (call_pay 1 merchant_addr 800000 [])
                 [] true) ])
    deployed.

Definition drained : world :=
  run_all wallet_addr
    (_createAgentWithBalance 750000 ++
     [ (1, on_wallet agentOwner (call_emergencyWithdraw 1) [] true) ])
    deployed.
End Tests.

(** * Proofs *)

(** ** Infrastructure *)

Lemma mget_insert_eq `{Countable K} {V} (z : V) (m : gmap K V) k v :
  mget z (<[k := v]> m) k = v.
Proof. unfold mget. by rewrite lookup_insert_eq. Qed.

Lemma mget_insert_ne `{Countable K} {V} (z : V) (m : gmap K V) k k' v :
  k ≠ k' -> mget z (<[k := v]> m) k' = mget z m k'.
Proof. intros. unfold mget. by rewrite lookup_insert_ne. Qed.

Lemma mget_insert `{Countable K} {V} (z : V) (m : gmap K V) k k' v :
  mget z (<[k := v]> m) k' = if decide (k = k') then v else mget z m k'.
Proof. case_decide; subst; [apply mget_insert_eq | by apply mget_insert_ne]. Qed.

Lemma mget_empty `{Countable K} {V} (z : V) (k : K) : mget z (∅ : gmap K V) k = z.
Proof. unfold mget. by rewrite lookup_empty. Qed.

(** Symbolic execution: unfold the monad and the state updates, reduce the
    record projections, resolve reads of keys just written. *)
Ltac wsimpl :=
  repeat (progress (
    cbv [bind ret revert revert_if require get modify sstore emit drop
         add256 sub256 nonReentrant agentExists onlyAgentOwner onlyAgent
         store_policy _resetIfNeeded _validateLimits
         usdc_call usdc_do_transfer usdc_do_transferFrom usdc_do_approve
         usdc_get_allowance merchant_call
         agent_at policy_at balance_at whitelisted subscription_at
         next_subscription_at
         with_wallet with_usdc log_event log_interaction set_status
         set_nextAgentId set_agent set_whitelist set_balance set_subscription
         set_nextSubscriptionId set_policy _ENTERED _NOT_ENTERED] in *;
    cbn [wallet usdc events interactions _status nextAgentId _agents
         _merchantWhitelist _balances _subscriptions _nextSubscriptionId
         owner agent policy active dailyLimit perTxLimit spentToday lastReset
         merchant amountPerPeriod periodSeconds nextExecutionAt sub_active
         this block_timestamp msg_sender negb orb andb fst snd] in *;
    rewrite ?mget_insert_eq in *)).

(** Decide one comparison of the goal; impossible branches die by [lia]. *)
Ltac case_test :=
  match goal with
  | |- context [N.eqb ?a ?b] => destruct (N.eqb_spec a b)
  | |- context [N.ltb ?a ?b] => destruct (N.ltb_spec a b)
  | |- context [N.leb ?a ?b] => destruct (N.leb_spec a b)
  end; try (exfalso; (lia || congruence)); wsimpl.

Ltac case_tests := wsimpl; repeat case_test.

(** The same on a hypothesis that states how a run ended. *)
Ltac case_run H :=
  repeat (
    match type of H with
    | context [N.eqb ?a ?b] => destruct (N.eqb_spec a b)
    | context [N.ltb ?a ?b] => destruct (N.ltb_spec a b)
    | context [N.leb ?a ?b] => destruct (N.leb_spec a b)
    | context [if ?b then _ else _] => destruct b eqn:?
    | context [match ?x with inl _ => _ | inr _ => _ end] => destruct x eqn:?
    | context [match ?x with Some _ => _ | None => _ end] => destruct x eqn:?
    | context [match ?x with (_, _) => _ end] => destruct x eqn:?
    | context [match ?x with [] => _ | _ :: _ => _ end] => destruct x eqn:?
    end; wsimpl; try discriminate H).

(** Closed facts about the scenarios. *)
Ltac by_computation := vm_compute; (reflexivity || discriminate).

Lemma uint64_small (x : N) : x < 2 ^ 64 -> uint64 x = x.
Proof. intros. unfold uint64. by apply N.mod_small. Qed.

(** ** The scenarios of the specification, run on the model *)

Example scenario_A :
  policy_at Tests.created 1 =
  {| active := true; dailyLimit := 1000000; perTxLimit := 250000;
     spentToday := 0; lastReset := 1 |}.
Proof. vm_compute. reflexivity. Qed.

Example scenario_B :
  TestUSDC.balanceOf (usdc Tests.direct) Scenario.merchant_addr = 200000 /\
  balance_at Tests.direct 1 = 800000 /\
  spentToday (policy_at Tests.direct 1) = 200000.
Proof. repeat split; vm_compute; reflexivity. Qed.

Example scenario_C :
  TestUSDC.balanceOf (usdc Tests.pulled) Scenario.merchant_addr = 100000 /\
  TestUSDC.allowance (usdc Tests.pulled) Scenario.wallet_addr
    Scenario.merchant_addr = 0 /\
  balance_at Tests.pulled 1 = 400000.
Proof. repeat split; vm_compute; reflexivity. Qed.

Example scenario_D : spentToday (policy_at Tests.next_day 1) = 800000.
Proof. vm_compute. reflexivity. Qed.

Example scenario_E :
  balance_at Tests.drained 1 = 0 /\
  TestUSDC.balanceOf (usdc Tests.drained) Scenario.agentOwner = 750000.
Proof. repeat split; vm_compute; reflexivity. Qed.

Example scenario_F :
  run Scenario.wallet_addr 1
    (on_wallet Scenario.agentAddress
       (call_pay 1 Scenario.merchant_addr 500000001 []) [] true)
    Reentry.funded
  = (inl AgentWallet__PerTxLimitExceeded, Reentry.funded).
Proof. vm_compute. reflexivity. Qed.

(** ** updateLimits *)

(** C7. [updateLimits] is owner-only ([AgentNotFound], then [NotAgentOwner]),
    re-validates the limits as creation does (both nonzero and
    [newPerTx <= newDaily], else [InvalidLimits]), applies a due window reset
    first, stores the new limits, and clamps [spentToday] down to [newDaily]
    when it exceeds it; [spentToday] is never raised. *)
Theorem updateLimits_spec (E : env) (agentId newDaily newPerTx : N) (w : world) :
  let c := agent_at w agentId in
  let p0 := policy c in
  let pr := reset_policy (block_timestamp E) p0 in
  (owner c = 0 ->
   updateLimits E agentId newDaily newPerTx w
   = Reverted AgentWallet__AgentNotFound w) /\
  (owner c <> 0 -> owner c <> msg_sender E ->
   updateLimits E agentId newDaily newPerTx w
   = Reverted AgentWallet__NotAgentOwner w) /\
  (owner c <> 0 -> owner c = msg_sender E ->
   newDaily = 0 \/ newPerTx = 0 \/ newDaily < newPerTx ->
   updateLimits E agentId newDaily newPerTx w
   = Reverted AgentWallet__InvalidLimits w) /\
  (owner c <> 0 -> owner c = msg_sender E ->
   newDaily <> 0 -> newPerTx <> 0 -> newPerTx <= newDaily ->
   exists w',
     updateLimits E agentId newDaily newPerTx w = Done tt w' /\
     policy_at w' agentId =
       {| active := active p0; dailyLimit := newDaily;
          perTxLimit := newPerTx;
          spentToday := N.min (spentToday pr) newDaily;
          lastReset := lastReset pr |} /\
     spentToday (policy_at w' agentId) <= spentToday p0 /\
     owner (agent_at w' agentId) = owner c /\
     agent (agent_at w' agentId) = agent c /\
     balance_at w' agentId = balance_at w agentId).
Proof.
  cbv zeta. unfold updateLimits, reset_policy, window_due.
  repeat split.
  - intros. case_tests. reflexivity.
  - intros. case_tests. reflexivity.
  - intros ? ? [-> | [-> | ?]]; case_tests; reflexivity.
  - intros. case_tests.
    all: eexists; split; [reflexivity |]; wsimpl.
    all: repeat split; f_equal; lia.
Qed.

Lemma updateLimits_spec_witness :
  updateLimits (Paying.owner_env 1) 9 3 2 Unlimited.w
  = Reverted AgentWallet__AgentNotFound Unlimited.w /\
  updateLimits Paying.E 1 3 2 Unlimited.w
  = Reverted AgentWallet__NotAgentOwner Unlimited.w /\
  updateLimits (Paying.owner_env 1) 1 2 3 Unlimited.w
  = Reverted AgentWallet__InvalidLimits Unlimited.w /\
  exists w',
    updateLimits (Paying.owner_env 1) 1 3 2 Unlimited.w = Done tt w' /\
    spentToday (policy_at w' 1) = 3.
Proof.
  split; [| split; [| split]].
  - destruct (updateLimits_spec (Paying.owner_env 1) 9 3 2 Unlimited.w)
      as (H & _). apply H; by_computation.
  - destruct (updateLimits_spec Paying.E 1 3 2 Unlimited.w) as (_ & H & _).
    apply H; by_computation.
  - destruct (updateLimits_spec (Paying.owner_env 1) 1 2 3 Unlimited.w)
      as (_ & _ & H & _).
    apply H; [by_computation | by_computation |]. right; right. by_computation.
  - destruct (updateLimits_spec (Paying.owner_env 1) 1 3 2 Unlimited.w)
      as (_ & _ & _ & H).
    destruct H as (w' & Hrun & Hpol & _); [by_computation .. |].
    exists w'. split; [exact Hrun |]. rewrite Hpol. by_computation.
Defined.

(** ** emergencyWithdraw *)

Ltac tsimpl :=
  repeat (progress (
    cbv [TestUSDC.transfer TestUSDC.transferFrom TestUSDC.approve
         TestUSDC._transfer TestUSDC.mint TestUSDC.balanceOf
         TestUSDC.allowance TestUSDC.set_balance TestUSDC.set_allowance] in *;
    cbn [TestUSDC._balances TestUSDC._allowances] in *;
    wsimpl;
    rewrite ?mget_insert_eq, ?mget_insert_ne in * by congruence)).

(** C9. [emergencyWithdraw] is owner-only and drains the agent's whole
    balance whatever the policy, whitelist or limits are: it zeroes
    [Balance[agentId]] and then pushes the prior balance to the owner, whose
    token balance grows by exactly that amount. The only conditions are the
    entry guards and that the token accepts the transfer. *)
Theorem emergencyWithdraw_spec (E : env) (agentId : N) (w : world) :
  let c := agent_at w agentId in
  let prior := balance_at w agentId in
  (owner c = 0 ->
   emergencyWithdraw E agentId w = Reverted AgentWallet__AgentNotFound w) /\
  (owner c <> 0 -> owner c <> msg_sender E ->
   emergencyWithdraw E agentId w = Reverted AgentWallet__NotAgentOwner w) /\
  (owner c <> 0 -> owner c = msg_sender E ->
   _status (wallet w) <> _ENTERED ->
   msg_sender E <> this E ->
   prior <= TestUSDC.balanceOf (usdc w) (this E) ->
   TestUSDC.balanceOf (usdc w) (msg_sender E) + prior <= MAX_UINT256 ->
   exists w',
     emergencyWithdraw E agentId w = Done tt w' /\
     balance_at w' agentId = 0 /\
     TestUSDC.balanceOf (usdc w') (msg_sender E)
     = TestUSDC.balanceOf (usdc w) (msg_sender E) + prior /\
     TestUSDC.balanceOf (usdc w') (this E)
     = TestUSDC.balanceOf (usdc w) (this E) - prior /\
     agent_at w' agentId = c /\
     events w' = events w ++ [EmergencyWithdraw agentId prior] /\
     interactions w' = interactions w ++ [usdc_transfer (msg_sender E) prior] /\
     _status (wallet w') = _NOT_ENTERED) /\
  (owner c <> 0 -> owner c = msg_sender E ->
   _status (wallet w) <> _ENTERED ->
   TestUSDC.balanceOf (usdc w) (this E) < prior ->
   exists w',
     emergencyWithdraw E agentId w = Reverted (Error "balance") w' /\
     balance_at w' agentId = 0 /\
     interactions w' = interactions w ++ [usdc_transfer (msg_sender E) prior]).
Proof.
  cbv zeta. unfold emergencyWithdraw.
  repeat split.
  - intros. case_tests. reflexivity.
  - intros. case_tests. reflexivity.
  - intros. tsimpl. repeat (case_test; tsimpl).
    eexists; split; [reflexivity |]; tsimpl.
    repeat split.
  - intros. tsimpl. repeat (case_test; tsimpl).
    eexists; split; [reflexivity |]; tsimpl.
    repeat split.
Qed.

Lemma emergencyWithdraw_spec_witness :
  emergencyWithdraw (Paying.owner_env 2) 9 Drain.w
  = Reverted AgentWallet__AgentNotFound Drain.w /\
  emergencyWithdraw (Corner.delegate_env 2) 1 Drain.w
  = Reverted AgentWallet__NotAgentOwner Drain.w /\
  active (policy_at Drain.w 1) = false /\
  (exists w',
     emergencyWithdraw (Paying.owner_env 2) 1 Drain.w = Done tt w' /\
     balance_at w' 1 = 0 /\
     TestUSDC.balanceOf (usdc w') Scenario.agentOwner = 750000) /\
  (exists w',
     emergencyWithdraw (Paying.owner_env 2) 1 Corner.unbacked
     = Reverted (Error "balance") w' /\
     balance_at w' 1 = 0).
Proof.
  split; [| split; [| split; [by_computation | split]]].
  - destruct (emergencyWithdraw_spec (Paying.owner_env 2) 9 Drain.w)
      as (H & _). apply H; by_computation.
  - destruct (emergencyWithdraw_spec (Corner.delegate_env 2) 1 Drain.w)
      as (_ & H & _). apply H; by_computation.
  - destruct (emergencyWithdraw_spec (Paying.owner_env 2) 1 Drain.w)
      as (_ & _ & H & _).
    destruct H as (w' & Hrun & Hbal & Hown & _); [by_computation .. |].
    exists w'. split; [exact Hrun |]. split; [exact Hbal |].
    change (msg_sender (Paying.owner_env 2)) with Scenario.agentOwner in Hown.
    rewrite Hown. by_computation.
  - destruct (emergencyWithdraw_spec (Paying.owner_env 2) 1 Corner.unbacked)
      as (_ & _ & _ & H).
    destruct H as (w' & Hrun & Hbal & _); [by_computation .. |].
    exists w'. split; [exact Hrun | exact Hbal].
Defined.

(** ** The payment pipeline: order of the checks *)

Ltac use_bool :=
  match goal with
  | H : ?x = true |- context [?x] => rewrite H
  | H : ?x = false |- context [?x] => rewrite H
  end; wsimpl.

Ltac run_checks := wsimpl; repeat (first [use_bool | case_test]).

(** C3 (amended). A [pay] that passed entry validation evaluates, on the
    policy as the window reset leaves it, the active check, the whitelist
    check, the per-transaction check, the daily check and the balance check
    in this order, each with its own error kind; a merchant that is not
    whitelisted is refused with [MerchantNotAllowed] whatever the funds and
    limits are. The daily check answers [DailyLimitExceeded] when
    [spentToday + amount] fits in 256 bits; when the sum overflows the call
    fails as well, with the arithmetic panic of the checked addition. *)
Theorem pay_checks_order (E : env)
  (call : address -> bytes -> world -> option world)
  (agentId : N) (m : address) (amount : N) (data : bytes) (w : world) :
  let c := agent_at w agentId in
  let pr := reset_policy (block_timestamp E) (policy c) in
  owner c <> 0 -> agent c = msg_sender E -> _status (wallet w) <> _ENTERED ->
  m <> 0 -> amount <> 0 ->
  (active pr = false ->
   frame (pay E call agentId m amount data) w
   = (inl AgentWallet__PolicyInactive, w)) /\
  (active pr = true -> whitelisted w agentId m = false ->
   frame (pay E call agentId m amount data) w
   = (inl AgentWallet__MerchantNotAllowed, w)) /\
  (active pr = true -> whitelisted w agentId m = true ->
   perTxLimit pr < amount ->
   frame (pay E call agentId m amount data) w
   = (inl AgentWallet__PerTxLimitExceeded, w)) /\
  (active pr = true -> whitelisted w agentId m = true ->
   amount <= perTxLimit pr ->
   dailyLimit pr < spentToday pr + amount ->
   spentToday pr + amount <= MAX_UINT256 ->
   frame (pay E call agentId m amount data) w
   = (inl AgentWallet__DailyLimitExceeded, w)) /\
  (active pr = true -> whitelisted w agentId m = true ->
   amount <= perTxLimit pr ->
   MAX_UINT256 < spentToday pr + amount ->
   frame (pay E call agentId m amount data) w = (inl (Panic 17), w)) /\
  (active pr = true -> whitelisted w agentId m = true ->
   amount <= perTxLimit pr ->
   spentToday pr + amount <= dailyLimit pr ->
   spentToday pr + amount <= MAX_UINT256 ->
   balance_at w agentId < amount ->
   frame (pay E call agentId m amount data) w
   = (inl AgentWallet__InsufficientBalance, w)).
Proof.
  cbv zeta. intros Hex Hag Hst Hm Ha.
  unfold frame, pay, _processPayment, reset_policy, window_due.
  repeat split; intros.
  all: run_checks.
  all: reflexivity.
Qed.

Lemma pay_checks_order_witness :
  frame (pay (Corner.delegate_env 2) Paying.no_callee 1 Scenario.merchant_addr 5
           []) Drain.w
  = (inl AgentWallet__PolicyInactive, Drain.w) /\
  frame (pay Paying.E Paying.no_callee 1 Paying.unlisted 5 []) Reentry.funded
  = (inl AgentWallet__MerchantNotAllowed, Reentry.funded) /\
  frame (pay Paying.E Paying.no_callee 1 Scenario.merchant_addr 500000001 [])
    Reentry.funded
  = (inl AgentWallet__PerTxLimitExceeded, Reentry.funded) /\
  frame (pay Paying.E Paying.no_callee 1 Scenario.merchant_addr 200000 [])
    Corner.tight
  = (inl AgentWallet__DailyLimitExceeded, Corner.tight) /\
  frame (pay Paying.E Paying.no_callee 1 Scenario.merchant_addr MAX_UINT256 [])
    Unlimited.w
  = (inl (Panic 17), Unlimited.w) /\
  frame (pay Paying.E Paying.no_callee 1 Scenario.merchant_addr 2000000 [])
    Reentry.funded
  = (inl AgentWallet__InsufficientBalance, Reentry.funded).
Proof.
  repeat apply conj.
  - refine (proj1
      (pay_checks_order (Corner.delegate_env 2) Paying.no_callee 1
         Scenario.merchant_addr 5 [] Drain.w _ _ _ _ _) _); by_computation.
  - refine (proj1 (proj2
      (pay_checks_order Paying.E Paying.no_callee 1 Paying.unlisted 5 []
         Reentry.funded _ _ _ _ _)) _ _); by_computation.
  - refine (proj1 (proj2 (proj2
      (pay_checks_order Paying.E Paying.no_callee 1 Scenario.merchant_addr
         500000001 [] Reentry.funded _ _ _ _ _))) _ _ _); by_computation.
  - refine (proj1 (proj2 (proj2 (proj2
      (pay_checks_order Paying.E Paying.no_callee 1 Scenario.merchant_addr
         200000 [] Corner.tight _ _ _ _ _)))) _ _ _ _ _); by_computation.
  - refine (proj1 (proj2 (proj2 (proj2 (proj2
      (pay_checks_order Paying.E Paying.no_callee 1 Scenario.merchant_addr
         MAX_UINT256 [] Unlimited.w _ _ _ _ _))))) _ _ _ _); by_computation.
  - refine (proj2 (proj2 (proj2 (proj2 (proj2
      (pay_checks_order Paying.E Paying.no_callee 1 Scenario.merchant_addr
         2000000 [] Reentry.funded _ _ _ _ _))))) _ _ _ _ _ _); by_computation.
Defined.

(** C3 as the specification words it does not hold here: entry validation,
    the active check, the whitelist check and the per-transaction check
    pass, [spentToday + amount] exceeds [dailyLimit], and the call does not
    end with [DailyLimitExceeded]. *)
Lemma pay_daily_check_overflow :
  let w := Unlimited.w in
  let pr := reset_policy 1 (policy_at w 1) in
  owner (agent_at w 1) <> 0 /\
  agent (agent_at w 1) = Scenario.agentAddress /\
  _status (wallet w) <> _ENTERED /\
  active pr = true /\
  whitelisted w 1 Scenario.merchant_addr = true /\
  MAX_UINT256 <= perTxLimit pr /\
  dailyLimit pr < spentToday pr + MAX_UINT256 /\
  fst (run Scenario.wallet_addr 1 Unlimited.second_payment w)
  = inl (Panic 17) /\
  fst (run Scenario.wallet_addr 1 Unlimited.second_payment w)
  <> inl AgentWallet__DailyLimitExceeded.
Proof.
  cbv zeta. repeat split; vm_compute; (reflexivity || discriminate).
Qed.

(** ** The payment pipeline: settlement through a callback *)





(** ** Reasoning about whole runs *)

(** Induction on an action, with the hypothesis for every action of the
    callee. *)
Lemma action_nested_ind (P : action -> Prop) :
  (forall sender c, P (on_token sender c)) ->
  (forall sender c callee ok,
     Forall P callee -> P (on_wallet sender c callee ok)) ->
  forall a, P a.
Proof.
  intros Htoken Hwallet.
  fix IH 1.
  intros [sender c | sender c callee ok].
  - apply Htoken.
  - apply Hwallet. induction callee as [| a callee IHcallee].
    + constructor.
    + constructor; [apply IH | exact IHcallee].
Qed.

Lemma all_calls_true (a : action) : all_calls (fun _ _ => true) a = true.
Proof.
  induction a as [| sender c callee ok IH] using action_nested_ind; [done |].
  cbn. induction IH as [| a callee Ha _ IHl]; [done |].
  cbn in *. by rewrite Ha.
Qed.

Section RunRelation.

Variables (self now : N).
Variable R : world -> world -> Prop.
Variable good : address -> wallet_call -> bool.

Hypothesis R_refl : forall w, R w w.
Hypothesis R_trans : forall w1 w2 w3, R w1 w2 -> R w2 w3 -> R w1 w3.
Hypothesis R_token :
  forall w t, R w (with_usdc t w).
Hypothesis R_dispatch :
  forall sender c call w w',
    good sender c = true ->
    (forall t d w1 w2, call t d w1 = Some w2 -> R w1 w2) ->
    dispatch
      {| this := self; block_timestamp := now; msg_sender := sender |}
      call c w = Done tt w' ->
    R w w'.

Lemma run_related (a : action) :
  all_calls good a = true -> forall w, R w (snd (run self now a w)).
Proof.
  induction a as [sender c | sender c callee ok IH] using action_nested_ind;
    intros Hgood w.
  - cbn. unfold token_frame. destruct (token_step sender c (usdc w)); cbn;
      [apply R_refl | apply R_token].
  - cbn in Hgood. apply andb_prop in Hgood as [Hc Hcallee].
    cbn [run]. unfold frame.
    destruct (dispatch _ _ c w) as [[] w' | e w'] eqn:Hrun; cbn;
      [| apply R_refl].
    eapply R_dispatch; [exact Hc | | exact Hrun].
    intros t d w1 w2. cbn beta. destruct ok; [| discriminate].
    intros [= <-]. clear Hrun.
    revert w1. induction IH as [| a callee Ha _ IHl]; intros w1; cbn.
    + apply R_refl.
    + cbn in Hcallee. apply andb_prop in Hcallee as [Hga Hgl].
      eapply R_trans; [apply (Ha Hga) | apply (IHl Hgl)].
Qed.

End RunRelation.

Ltac unfold_calls :=
  unfold dispatch, createAgent, setAgentAddress, deposit, withdraw,
    emergencyWithdraw, setPolicyActive, updateLimits, setMerchantWhitelist,
    pay, createSubscription, setSubscriptionStatus, executeSubscription,
    _processPayment in *.

(** ** The reentrancy latch *)

Lemma dispatch_latch_kept (E : env) call (c : wallet_call) (w w' : world) :
  dispatch E call c w = Done tt w' -> latch_kept w w'.
Proof.
  intros Hrun. unfold latch_kept in *. intros Hst.
  destruct c; unfold_calls.
  all: tsimpl; case_run Hrun.
  all: injection Hrun as <-; tsimpl; try reflexivity; lia.
Qed.

Lemma run_latch_kept (self now : N) (a : action) (w : world) :
  latch_kept w (snd (run self now a w)).
Proof.
  apply (run_related self now latch_kept (fun _ _ => true)).
  - intros w0 _. reflexivity.
  - intros w1 w2 w3 H12 H23 Hst. rewrite (H23 ltac:(rewrite (H12 Hst); exact Hst)).
    exact (H12 Hst).
  - intros w0 t _. reflexivity.
  - intros sender c call w0 w' _ _ Hrun. exact (dispatch_latch_kept _ _ _ _ _ Hrun).
  - apply all_calls_true.
Qed.

Ltac case_goal1 :=
  first
    [ case_test | use_bool
    | match goal with
      | |- context [if ?b then _ else _] => destruct b eqn:?; tsimpl
      | |- context [match ?x with [] => _ | _ :: _ => _ end] =>
          destruct x eqn:?; tsimpl
      end ].

Lemma processPayment_while_entered (E : env) call agentId m amount data
  (w : world) :
  _status (wallet w) = _ENTERED ->
  _processPayment E call agentId m amount data w
  = _processPayment E (while_entered call) agentId m amount data w.
Proof.
  intros Hst. unfold _processPayment, while_entered. tsimpl.
  repeat case_goal1.
  all: reflexivity.
Qed.

Lemma dispatch_while_entered (E : env) call (c : wallet_call) (w : world) :
  dispatch E call c w = dispatch E (while_entered call) c w.
Proof.
  destruct c; cbn [dispatch];
    lazymatch goal with
    | |- pay _ _ _ _ _ _ _ = _ => idtac
    | |- executeSubscription _ _ _ _ _ _ = _ => idtac
    | |- _ => reflexivity
    end.
  - unfold pay. wsimpl. repeat case_goal1; try reflexivity.
    rewrite <- processPayment_while_entered by reflexivity. reflexivity.
  - unfold executeSubscription. wsimpl. repeat case_goal1; try reflexivity.
    rewrite <- processPayment_while_entered by reflexivity. reflexivity.
Qed.

Lemma guarded_reentry (E : env) call (c : wallet_call) (w : world) :
  guarded c = true -> _status (wallet w) = _ENTERED ->
  exists e,
    frame (dispatch E call c) w = (inl e, w) /\
    (access_ok E c w = true -> e = ReentrantCall) /\
    (access_ok E c w = false ->
     e = AgentWallet__AgentNotFound \/ e = AgentWallet__NotAgentOwner \/
     e = AgentWallet__NotAgent).
Proof.
  intros Hg Hst. unfold frame, ReentrantCall.
  destruct c; try discriminate Hg; unfold access_ok; unfold_calls; tsimpl.
  all: repeat case_test.
  all: eexists; (split; [reflexivity |]); split; intros; try discriminate; auto.
Qed.

Lemma guarded_revert_entered (E : env) call (c : wallet_call) (w wf : world)
  (e : error) :
  guarded c = true -> dispatch E call c w = Reverted e wf ->
  ~ raised_before_latch e -> _status (wallet wf) = _ENTERED.
Proof.
  intros Hg Hrun Hin. unfold raised_before_latch, ReentrantCall in Hin.
  destruct c; try discriminate Hg; unfold_calls.
  all: tsimpl; case_run Hrun.
  all: injection Hrun as <- <-; try reflexivity.
  all: exfalso; apply Hin; auto.
Qed.

(** C5 (amended). One latch, [_status], guards [deposit], [withdraw],
    [emergencyWithdraw], [pay] and [executeSubscription]. Entering sets it:
    the code a guarded call hands control to only ever runs while the latch
    is set, and a guarded call that reverts in its body does so from a state
    in which the latch is set. Every attempt to enter a guarded entry point
    while it is set fails and changes nothing; the failure is
    [ReentrantCall] when the agent exists and the caller passes the entry
    point's owner or delegate check, which are evaluated before the latch,
    and is [AgentNotFound], [NotAgentOwner] or [NotAgent] otherwise.
    Leaving, by return or by revert, clears it: a call that starts with the
    latch clear ends with the latch clear, whatever the callee did. *)
Theorem reentrancy_latch :
  (forall E call c w,
     dispatch E call c w = dispatch E (while_entered call) c w) /\
  (forall E call c w e wf,
     guarded c = true -> dispatch E call c w = Reverted e wf ->
     ~ raised_before_latch e -> _status (wallet wf) = _ENTERED) /\
  (forall E call c w,
     guarded c = true -> _status (wallet w) = _ENTERED ->
     exists e,
       frame (dispatch E call c) w = (inl e, w) /\
       (access_ok E c w = true -> e = ReentrantCall) /\
       (access_ok E c w = false ->
        e = AgentWallet__AgentNotFound \/ e = AgentWallet__NotAgentOwner \/
        e = AgentWallet__NotAgent)) /\
  (forall self now a w,
     _status (wallet w) = _NOT_ENTERED ->
     _status (wallet (snd (run self now a w))) = _NOT_ENTERED).
Proof.
  split; [| split; [| split]].
  - apply dispatch_while_entered.
  - intros E call c w e wf. apply guarded_revert_entered.
  - apply guarded_reentry.
  - intros self now a w Hst.
    rewrite (run_latch_kept self now a w); [exact Hst | by left].
Qed.

Lemma reentrancy_latch_witness :
  (exists e wf,
     dispatch (Paying.owner_env 1) Paying.no_callee (call_withdraw 1 2000000)
       Reentry.funded = Reverted e wf /\
     _status (wallet wf) = _ENTERED) /\
  (exists e,
     frame (dispatch Late.E Paying.no_callee (call_executeSubscription 1 1 []))
       Reentry.entered
     = (inl e, Reentry.entered) /\ e = ReentrantCall) /\
  _status (wallet (snd (run Scenario.wallet_addr 1 Reentry.merchant_deposits
                          Reentry.funded))) = _NOT_ENTERED.
Proof.
  destruct reentrancy_latch as (_ & Hbody & Hnested & Hexit).
  split; [| split].
  - destruct (dispatch (Paying.owner_env 1) Paying.no_callee
                (call_withdraw 1 2000000) Reentry.funded)
      as [u wf | e wf] eqn:Hrun; [vm_compute in Hrun; discriminate Hrun |].
    exists e, wf. split; [reflexivity |].
    assert (He : e = AgentWallet__InsufficientBalance)
      by (vm_compute in Hrun; congruence).
    eapply Hbody; [| exact Hrun |]; [reflexivity |].
    subst e. intros [H | [H | [H | H]]]; discriminate H.
  - destruct (Hnested Late.E Paying.no_callee (call_executeSubscription 1 1 [])
                Reentry.entered eq_refl eq_refl) as (e & Hrun & Hok & _).
    exists e. split; [exact Hrun |]. apply Hok. by_computation.
  - apply Hexit. by_computation.
Defined.

(** C5 as the specification words it does not hold here: with the latch
    set, the merchant's attempt to enter [deposit] is refused by the owner
    check, not with [ReentrantCall]; the same happens when the attempt is
    made from inside a running payment. *)
Lemma reentrant_deposit_refused_by_owner_check :
  _status (wallet Reentry.entered) = _ENTERED /\
  guarded (call_deposit 1 5) = true /\
  fst (run Scenario.wallet_addr 1 Reentry.merchant_deposits Reentry.entered)
  = inl AgentWallet__NotAgentOwner /\
  fst (run Scenario.wallet_addr 1 Reentry.merchant_deposits Reentry.entered)
  <> inl ReentrantCall /\
  fst (frame (pay Reentry.E (Reentry.probing AgentWallet__NotAgentOwner) 1
                Scenario.merchant_addr 100000 [Byte.x31]) Reentry.funded)
  = inr tt /\
  fst (frame (pay Reentry.E (Reentry.probing ReentrantCall) 1
                Scenario.merchant_addr 100000 [Byte.x31]) Reentry.funded)
  = inl MerchantCallFailed.
Proof.
  repeat split; vm_compute; (reflexivity || discriminate).
Qed.

(** ** Failure atomicity *)

Lemma run_failure_unchanged (self now : N) (a : action) (w : world)
  (e : error) :
  fst (run self now a w) = inl e -> snd (run self now a w) = w.
Proof.
  destruct a as [sender c | sender c callee ok]; cbn [run].
  - unfold token_frame.
    destruct (token_step sender c (usdc w)); cbn; [done | discriminate].
  - unfold frame. destruct (dispatch _ _ c w); cbn; [discriminate | done].
Qed.

(** C2. A call that fails, whatever the error kind and whatever the callee
    did, leaves the whole state (agent records, policies, balances,
    whitelist, subscriptions, token ledger, logs) as it was before the call.
    This includes a settlement failure after the commit: when the token
    refuses the direct transfer, or the merchant's callback fails, the
    execution had already stored the debit and the new [spentToday], and the
    call still ends with the state unchanged. *)
Theorem failure_atomic :
  (forall self now a w e,
     fst (run self now a w) = inl e -> snd (run self now a w) = w) /\
  (forall E call agentId m amount w e,
     let c := agent_at w agentId in
     let pr := reset_policy (block_timestamp E) (policy c) in
     owner c <> 0 -> agent c = msg_sender E ->
     _status (wallet w) <> _ENTERED -> m <> 0 -> amount <> 0 ->
     active pr = true -> whitelisted w agentId m = true ->
     amount <= perTxLimit pr ->
     spentToday pr + amount <= dailyLimit pr ->
     spentToday pr + amount <= MAX_UINT256 ->
     amount <= balance_at w agentId ->
     TestUSDC.transfer (this E) m amount (usdc w) = inl e ->
     exists wc,
       pay E call agentId m amount [] w = Reverted e wc /\
       balance_at wc agentId = balance_at w agentId - amount /\
       spentToday (policy_at wc agentId) = spentToday pr + amount /\
       frame (pay E call agentId m amount []) w = (inl e, w)) /\
  (forall E agentId m amount b rest w,
     let c := agent_at w agentId in
     let pr := reset_policy (block_timestamp E) (policy c) in
     owner c <> 0 -> agent c = msg_sender E ->
     _status (wallet w) <> _ENTERED -> m <> 0 -> amount <> 0 ->
     active pr = true -> whitelisted w agentId m = true ->
     amount <= perTxLimit pr ->
     spentToday pr + amount <= dailyLimit pr ->
     spentToday pr + amount <= MAX_UINT256 ->
     amount <= balance_at w agentId ->
     exists wc,
       pay E (fun _ _ _ => None) agentId m amount (b :: rest) w
       = Reverted MerchantCallFailed wc /\
       balance_at wc agentId = balance_at w agentId - amount /\
       spentToday (policy_at wc agentId) = spentToday pr + amount /\
       TestUSDC.allowance (usdc wc) (this E) m = amount /\
       frame (pay E (fun _ _ _ => None) agentId m amount (b :: rest)) w
       = (inl MerchantCallFailed, w)).
Proof.
  split; [exact run_failure_unchanged | split].
  - cbv zeta. intros E call agentId m amount w e. intros.
    unfold frame, pay, _processPayment, reset_policy, window_due in *.
    wsimpl; repeat (first [use_bool | case_test]).
    all: match goal with H : TestUSDC.transfer _ _ _ _ = inl _ |- _ =>
           rewrite H end.
    all: eexists; split; [reflexivity |]; tsimpl; repeat split; lia.
  - cbv zeta. intros.
    unfold frame, pay, _processPayment, reset_policy, window_due,
      MerchantCallFailed in *.
    tsimpl; repeat (first [use_bool | case_test]); tsimpl.
    all: eexists; split; [reflexivity |]; tsimpl; repeat split; lia.
Qed.

Lemma failure_atomic_witness :
  snd (run Scenario.wallet_addr 1 Refused.payment Refused.w) = Refused.w /\
  (exists wc,
     pay Refused.E (fun _ _ _ => None) 1 Scenario.merchant_addr 200000 []
       Refused.w = Reverted (Panic 17) wc /\
     balance_at wc 1 = 800000) /\
  (exists wc,
     pay Refused.E (fun _ _ _ => None) 1 Scenario.merchant_addr 200000
       [Byte.x31] Reentry.funded = Reverted MerchantCallFailed wc /\
     balance_at wc 1 = 800000).
Proof.
  destruct failure_atomic as (Hrun & Hdirect & Hcallback).
  split; [| split].
  - apply (Hrun _ _ _ _ (Panic 17)). vm_compute. reflexivity.
  - destruct (Hdirect Refused.E (fun _ _ _ => None) 1 Scenario.merchant_addr
                200000 Refused.w (Panic 17))
      as (wc & Hraw & Hbal & _);
      [vm_compute; (reflexivity || discriminate) .. |].
    exists wc. split; [exact Hraw |]. rewrite Hbal. vm_compute. reflexivity.
  - destruct (Hcallback Refused.E 1 Scenario.merchant_addr 200000 Byte.x31 []
                Reentry.funded)
      as (wc & Hraw & Hbal & _);
      [vm_compute; (reflexivity || discriminate) .. |].
    exists wc. split; [exact Hraw |]. rewrite Hbal. vm_compute. reflexivity.
Defined.

(** ** Invariants of the registry *)

Lemma steps_refl strict now w : steps strict now w w.
Proof. intros Hinv. split; [assumption | auto | lia | by intros id _ _]. Qed.

Lemma steps_trans strict now w1 w2 w3 :
  steps strict now w1 w2 -> steps strict now w2 w3 -> steps strict now w1 w3.
Proof.
  intros H12 H23 Hinv. destruct (H12 Hinv) as [Hr2 Ho2 Hn2 Hw2].
  destruct (H23 Hr2) as [Hr3 Ho3 Hn3 Hw3].
  split; [assumption | auto | lia |].
  - intros id Hreg Hdue. 
    assert (registered w2 id) as Hreg2 by (unfold registered in *; lia).
    pose proof (Hw2 id Hreg Hdue) as Heq.
    rewrite <- Heq. apply Hw3; [done |].
    unfold window_due in *. by rewrite Heq.
Qed.

Lemma exists_registered w id :
  registry_ok w -> owner (agent_at w id) <> 0 -> registered w id.
Proof.
  intros [_ Habs] Hown. destruct (decide (registered w id)) as [|Hn]; [done|].
  rewrite (Habs id Hn) in Hown. done.
Qed.

(** [w'] is an explicit update of [w]. *)
Ltac step_solve w Hinv :=
  let HA := fresh "HA" in let HB := fresh "HB" in
  pose proof (reg_policy w Hinv) as HA; pose proof (reg_absent w Hinv) as HB;
  try match goal with
  | Hex : owner (mget zero_agent (_agents (wallet w)) ?i) <> 0 |- _ =>
      pose proof (exists_registered w i Hinv Hex)
  end;
  split; [split | intros ? HC | | ];
  unfold owners_ok, window_kept, window_due, registered, policy_ok in *; tsimpl;
  try lia;
  intros id'; specialize (HA id'); specialize (HB id');
  try match goal with HC : forall _, _ -> owner _ <> 0 |- _ => specialize (HC id') end;
  rewrite ?mget_insert; repeat case_decide; subst; tsimpl;
  intros;
  repeat match goal with
         | H : (_ <=? _) = false |- _ => apply N.leb_gt in H
         | H : (_ <=? _) = true |- _ => apply N.leb_le in H
         end;
  try (apply HB; lia);
  try (exfalso; lia);
  try (destruct HA as (? & ? & ?); [lia |]);
  repeat split; try lia; try congruence; try auto.

Lemma dispatch_steps strict E call c w w' :
  creator_known strict (msg_sender E) c = true ->
  (forall t d w1 w2, call t d w1 = Some w2 -> steps strict (block_timestamp E) w1 w2) ->
  dispatch E call c w = Done tt w' -> steps strict (block_timestamp E) w w'.
Proof.
  intros Hgood Hcall Hrun Hinv.
  assert (strict = true -> match c with call_createAgent _ _ _ => msg_sender E <> 0 | _ => True end) as Hsender.
  { intros ->. destruct c; try done. cbn in Hgood. by apply negb_true_iff, N.eqb_neq in Hgood. }
  clear Hgood.
  destruct c; unfold_calls.
  all: tsimpl; case_run Hrun.
  all: try (injection Hrun as <-).
  all: try match goal with
       | Hc : _ _ _ ?W1 = Some ?w0 |- _ =>
           apply Hcall in Hc;
           refine (steps_trans strict _ w W1 _ _ (steps_trans strict _ W1 w0 _ Hc _) Hinv);
           [ clear Hc; intros _; step_solve w Hinv
           | clear Hc; let Hmid := fresh "Hmid" in intros Hmid; step_solve w0 Hmid ]
       end.
  all: try (step_solve w Hinv).
Qed.

Lemma run_steps strict self now a :
  all_calls (creator_known strict) a = true ->
  forall w, steps strict now w (snd (run self now a w)).
Proof.
  apply (run_related self now (steps strict now) (creator_known strict)).
  - apply steps_refl.
  - apply steps_trans.
  - intros w t [HA HB]. split; [by split | auto | cbn; lia | by intros id _ _].
  - intros sender c call w w' Hgood Hcall Hrun.
    exact (dispatch_steps strict
             {| this := self; block_timestamp := now; msg_sender := sender |}
             call c w w' Hgood Hcall Hrun).
Qed.

Lemma deployed_registry_ok : registry_ok deployed.
Proof.
  split.
  - intros id [H1 H2]. cbn in H2. lia.
  - intros id _. unfold agent_at. cbn. apply mget_empty.
Qed.

Lemma run_all_registry strict self txs :
  Forall (fun tx => all_calls (creator_known strict) tx.2 = true) txs ->
  forall w, registry_ok w ->
    registry_ok (run_all self txs w) /\
    (strict = true -> owners_ok w -> owners_ok (run_all self txs w)).
Proof.
  induction 1 as [| [now a] txs Ha _ IH]; intros w Hinv; cbn in *.
  - auto.
  - destruct (run_steps strict self now a Ha w Hinv) as [Hr Ho _ _].
    destruct (IH _ Hr) as [Hr' Ho']. split; auto.
Qed.

(** ** The daily window is checked first *)

Lemma resetIfNeeded_after_reset (E : env) (agentId : N) (w : world) :
  _resetIfNeeded E agentId w = Done tt (after_reset (block_timestamp E) agentId w).
Proof.
  unfold _resetIfNeeded, after_reset, reset_policy, window_due. wsimpl.
  destruct (_ <=? _); reflexivity.
Qed.

Lemma after_reset_not_due (now agentId : N) (w : world) :
  window_due now (policy_at w agentId) = false -> after_reset now agentId w = w.
Proof. unfold after_reset. by intros ->. Qed.

Lemma after_reset_again (now now' agentId : N) (w : world) :
  now < 2 ^ 64 -> now' < now + ONE_DAY ->
  window_due now (policy_at w agentId) = true ->
  window_due now' (policy_at (after_reset now agentId w) agentId) = false.
Proof.
  intros Hnow Hlt Hdue. unfold after_reset, reset_policy. rewrite Hdue.
  unfold window_due. wsimpl. rewrite (uint64_small _ Hnow). apply N.leb_gt. lia.
Qed.

Lemma after_reset_idem (now agentId : N) (w : world) :
  now < 2 ^ 64 ->
  after_reset now agentId (after_reset now agentId w) = after_reset now agentId w.
Proof.
  intros Hnow. destruct (window_due now (policy_at w agentId)) eqn:Hdue.
  - apply after_reset_not_due, after_reset_again; [done | unfold ONE_DAY; lia | done].
  - rewrite (after_reset_not_due _ _ _ Hdue). by apply after_reset_not_due.
Qed.

Lemma processPayment_reset_first (E : env) call agentId m amount data (w : world) :
  block_timestamp E < 2 ^ 64 ->
  _processPayment E call agentId m amount data w
  = _processPayment E call agentId m amount data (after_reset (block_timestamp E) agentId w).
Proof.
  intros Hnow. unfold _processPayment.
  unfold bind at 1. symmetry. unfold bind at 1. symmetry.
  rewrite !resetIfNeeded_after_reset, after_reset_idem by done. reflexivity.
Qed.

Lemma processPayment_check_failure (E : env) call agentId m amount data (w wf : world) e :
  _processPayment E call agentId m amount data w = Reverted e wf ->
  policy_check_error e ->
  wf = after_reset (block_timestamp E) agentId w.
Proof.
  unfold _processPayment. unfold bind at 1. rewrite resetIfNeeded_after_reset.
  generalize (after_reset (block_timestamp E) agentId w). clear w. intros w Hrun He.
  unfold policy_check_error in He.
  tsimpl. case_run Hrun.
  all: injection Hrun as <- <-; try reflexivity.
  all: try (destruct He as [He | [He | [He | [He | He]]]]; discriminate He).
Qed.

Lemma all_calls_always (P : address -> wallet_call -> bool) (a : action) :
  (forall sender c, P sender c = true) -> all_calls P a = true.
Proof.
  intros HP.
  induction a as [| sender c callee ok IH] using action_nested_ind; [done |].
  cbn. rewrite HP. cbn. induction IH as [| a callee Ha _ IHl]; [done |].
  cbn in *. by rewrite Ha.
Qed.

Lemma all_calls_unrestricted (a : action) :
  all_calls (creator_known false) a = true.
Proof. apply all_calls_always. by intros sender []. Qed.

Lemma reachable_registry_ok (self : N) (txs : list (N * action)) :
  registry_ok (run_all self txs deployed).
Proof.
  apply (run_all_registry false self txs); [| apply deployed_registry_ok].
  apply Forall_forall. intros tx _. apply all_calls_unrestricted.
Qed.

(** C6. The window check comes first in every policy-checking run: when
    [now >= windowStart + 24h] it stores [spentToday = 0] and
    [windowStart = now] and logs [DailySpendReset], and the checks that
    follow, whatever they decide, run on that state; a run that stops at one
    of the policy checks stops in exactly that state (the frame of a
    failed call then discards it with everything else). The check is
    idempotent, and any two calls made within the current window leave
    [windowStart] as it was. Block timestamps fit the [uint64] that stores
    them. *)
Theorem daily_window_first :
  (forall E agentId w,
     block_timestamp E < 2 ^ 64 ->
     let now := block_timestamp E in
     let p0 := policy_at w agentId in
     let wr := after_reset now agentId w in
     _resetIfNeeded E agentId w = Done tt wr /\
     (window_due now p0 = true ->
      spentToday (policy_at wr agentId) = 0 /\
      lastReset (policy_at wr agentId) = now /\
      events wr = events w ++ [DailySpendReset agentId]) /\
     (window_due now p0 = false -> wr = w) /\
     (forall call m amount data,
        _processPayment E call agentId m amount data w
        = _processPayment E call agentId m amount data wr) /\
     (forall call m amount data e wf,
        _processPayment E call agentId m amount data w = Reverted e wf ->
        policy_check_error e -> wf = wr) /\
     (owner (agent_at w agentId) <> 0 ->
      spentToday_view E agentId w = inr (spentToday (policy_at wr agentId))) /\
     _resetIfNeeded E agentId wr = Done tt wr) /\
  (forall self txs now1 a1 now2 a2 agentId,
     let w := run_all self txs deployed in
     let w1 := snd (run self now1 a1 w) in
     let w2 := snd (run self now2 a2 w1) in
     registered w agentId ->
     now1 < lastReset (policy_at w agentId) + ONE_DAY ->
     now2 < lastReset (policy_at w agentId) + ONE_DAY ->
     lastReset (policy_at w1 agentId) = lastReset (policy_at w agentId) /\
     lastReset (policy_at w2 agentId) = lastReset (policy_at w agentId)).
Proof.
  split.
  - intros E agentId w Hnow. cbv zeta.
    split; [apply resetIfNeeded_after_reset |].
    split; [| split; [apply after_reset_not_due |]].
    { intros Hdue. unfold after_reset, reset_policy. rewrite Hdue. wsimpl.
      by rewrite (uint64_small _ Hnow). }
    split; [intros; by apply processPayment_reset_first |].
    split; [intros call m amount data e wf; apply processPayment_check_failure |].
    split.
    + intros Hex. unfold spentToday_view, view, frame, after_reset, reset_policy,
        window_due in *. wsimpl. case_test.
      destruct (_ <=? _); wsimpl; reflexivity.
    + rewrite resetIfNeeded_after_reset. by rewrite after_reset_idem.
  - intros self txs now1 a1 now2 a2 agentId. cbv zeta. intros Hreg H1 H2.
    set (w := run_all self txs deployed) in *.
    pose proof (reachable_registry_ok self txs) as Hinv. fold w in Hinv.
    pose proof all_calls_unrestricted as Hgood.
    destruct (run_steps false self now1 a1 (Hgood a1) w Hinv)
      as [Hinv1 _ Hnext1 Hwin1].
    assert (Heq1 : lastReset (policy_at (snd (run self now1 a1 w)) agentId)
                   = lastReset (policy_at w agentId)).
    { apply Hwin1; [done |]. unfold window_due. apply N.leb_gt. lia. }
    split; [exact Heq1 |].
    destruct (run_steps false self now2 a2 (Hgood a2) _ Hinv1)
      as [_ _ _ Hwin2].
    rewrite <- Heq1. apply Hwin2.
    + unfold registered in *. lia.
    + unfold window_due. apply N.leb_gt. rewrite Heq1. lia.
Qed.

Lemma daily_window_first_witness :
  let wr := after_reset 90000 1 Reentry.funded in
  (_resetIfNeeded (Paying.owner_env 90000) 1 Reentry.funded = Done tt wr /\
   spentToday (policy_at wr 1) = 0 /\ lastReset (policy_at wr 1) = 90000) /\
  after_reset 5 1 Reentry.funded = Reentry.funded /\
  spentToday_view (Paying.owner_env 90000) 1 Corner.tight = inr 0 /\
  _processPayment (Corner.delegate_env 90000) Paying.no_callee 1
    Scenario.merchant_addr 5 [] Drain.w
  = Reverted AgentWallet__PolicyInactive (after_reset 90000 1 Drain.w) /\
  lastReset
    (policy_at
       (snd (run Scenario.wallet_addr 7 Unlimited.second_payment
               (snd (run Scenario.wallet_addr 5 Unlimited.second_payment
                       Unlimited.w))))
       1)
  = lastReset (policy_at Unlimited.w 1).
Proof.
  cbv zeta. destruct daily_window_first as (Hcheck & Htwice).
  repeat apply conj.
  - destruct (Hcheck (Paying.owner_env 90000) 1 Reentry.funded)
      as (Hrun & _); [by_computation |]. exact Hrun.
  - destruct (Hcheck (Paying.owner_env 90000) 1 Reentry.funded)
      as (_ & Hdue & _); [by_computation |]. apply Hdue. by_computation.
  - destruct (Hcheck (Paying.owner_env 90000) 1 Reentry.funded)
      as (_ & Hdue & _); [by_computation |]. apply Hdue. by_computation.
  - destruct (Hcheck (Paying.owner_env 5) 1 Reentry.funded)
      as (_ & _ & Hnot & _); [by_computation |]. apply Hnot. by_computation.
  - destruct (Hcheck (Paying.owner_env 90000) 1 Corner.tight)
      as (_ & _ & _ & _ & _ & Hview & _); [by_computation |].
    rewrite Hview; by_computation.
  - destruct (Hcheck (Corner.delegate_env 90000) 1 Drain.w)
      as (_ & _ & _ & _ & Hfail & _); [by_computation |].
    destruct (_processPayment (Corner.delegate_env 90000) Paying.no_callee 1
                Scenario.merchant_addr 5 [] Drain.w) as [u wf | e wf] eqn:Hrun;
      [vm_compute in Hrun; discriminate Hrun |].
    assert (He : e = AgentWallet__PolicyInactive)
      by (vm_compute in Hrun; congruence).
    subst e. f_equal. apply (Hfail _ _ _ _ _ _ Hrun). by left.
  - refine (proj2 (Htwice Scenario.wallet_addr Unlimited.setup 5
                     Unlimited.second_payment 7 Unlimited.second_payment 1
                     _ _ _)); try by_computation.
    vm_compute. split; discriminate.
Defined.

(** ** Policy invariants *)

(** C1. After every committed operation, whatever the callees did, every
    agent (every id allocated so far, and every id whose record has an
    owner) has strictly positive limits with [perTxLimit <= dailyLimit] and
    [spentToday <= dailyLimit]. *)
Theorem policy_invariants (self : N) (txs : list (N * action)) (agentId : N) :
  let w := run_all self txs deployed in
  let p := policy_at w agentId in
  registered w agentId \/ owner (agent_at w agentId) <> 0 ->
  0 < dailyLimit p /\ 0 < perTxLimit p /\
  perTxLimit p <= dailyLimit p /\ spentToday p <= dailyLimit p.
Proof.
  cbv zeta. intros Hagent.
  pose proof (reachable_registry_ok self txs) as Hinv.
  assert (Hreg : registered (run_all self txs deployed) agentId).
  { destruct Hagent as [H | H]; [exact H | by apply exists_registered]. }
  destruct (reg_policy _ Hinv agentId Hreg) as (H1 & H2 & H3).
  repeat split; lia.
Qed.

Lemma policy_invariants_witness :
  let w := run_all Scenario.wallet_addr Unlimited.setup deployed in
  0 < dailyLimit (policy_at w 1) /\ 0 < perTxLimit (policy_at w 1) /\
  perTxLimit (policy_at w 1) <= dailyLimit (policy_at w 1) /\
  spentToday (policy_at w 1) <= dailyLimit (policy_at w 1).
Proof.
  apply (policy_invariants Scenario.wallet_addr Unlimited.setup 1).
  left. vm_compute. split; discriminate.
Defined.

(** ** Agent ids *)

Lemma view_absent {A} (agentId : N) (f : world -> A) (w : world) :
  owner (agent_at w agentId) = 0 ->
  view agentId f w = inl AgentWallet__AgentNotFound.
Proof. intros H. unfold view, frame. wsimpl. rewrite H. reflexivity. Qed.

(** C10. Agent ids are allocated by pre-increment from 1. Id 0 never denotes
    an agent, and every accessor applied to it fails with [AgentNotFound].
    When every [createAgent] caller, nested ones included, is a non-null
    identity, a record with a non-null owner exists exactly for the ids
    [1..nextAgentId]. *)
Theorem agent_ids (self : N) (txs : list (N * action)) :
  let w := run_all self txs deployed in
  nextAgentId (wallet deployed) = 0 /\
  (forall E a d p w0 agentId w1,
     createAgent E a d p w0 = Done agentId w1 ->
     agentId = nextAgentId (wallet w0) + 1 /\
     nextAgentId (wallet w1) = agentId /\
     owner (agent_at w1 agentId) = msg_sender E) /\
  (owner (agent_at w 0) = 0 /\
   agent_view 0 w = inl AgentWallet__AgentNotFound /\
   balanceOf 0 w = inl AgentWallet__AgentNotFound /\
   (forall m, isMerchantWhitelisted 0 m w = inl AgentWallet__AgentNotFound) /\
   (forall E, spentToday_view E 0 w = inl AgentWallet__AgentNotFound) /\
   (forall s, subscription_view 0 s w = inl AgentWallet__AgentNotFound) /\
   nextSubscriptionId 0 w = inl AgentWallet__AgentNotFound) /\
  (Forall (fun tx => all_calls (creator_known true) tx.2 = true) txs ->
   forall agentId,
     owner (agent_at w agentId) <> 0 <-> 1 <= agentId <= nextAgentId (wallet w)).
Proof.
  cbv zeta.
  pose proof (reachable_registry_ok self txs) as Hinv.
  split; [reflexivity |]. split; [| split].
  - intros E a d p w0 agentId w1 Hrun. unfold createAgent in Hrun.
    wsimpl. case_run Hrun. injection Hrun as <- <-. wsimpl. auto.
  - assert (H0 : owner (agent_at (run_all self txs deployed) 0) = 0).
    { rewrite (reg_absent _ Hinv 0); [reflexivity |]. unfold registered. lia. }
    split; [exact H0 |].
    unfold agent_view, balanceOf, isMerchantWhitelisted, spentToday_view,
      subscription_view, nextSubscriptionId.
    repeat split; intros; by apply view_absent.
  - intros Hgood agentId.
    destruct (run_all_registry true self txs Hgood deployed deployed_registry_ok)
      as [_ Hown].
    split.
    + by apply exists_registered.
    + apply Hown; [reflexivity |]. intros id [H1 H2]. cbn in H2. lia.
Qed.

Lemma agent_ids_witness :
  let w := run_all Scenario.wallet_addr Unlimited.setup deployed in
  (owner (agent_at w 1) <> 0 <-> 1 <= 1 <= nextAgentId (wallet w)) /\
  (exists w1, createAgent Refused.E 5 10 10 deployed = Done 1 w1).
Proof.
  destruct (agent_ids Scenario.wallet_addr Unlimited.setup)
    as (_ & Halloc & _ & Hsentinel).
  split.
  - apply Hsentinel. vm_compute. repeat constructor.
  - destruct (createAgent Refused.E 5 10 10 deployed) as [i w1 | e w1] eqn:Hrun;
      [| vm_compute in Hrun; discriminate Hrun].
    destruct (Halloc _ _ _ _ _ _ _ Hrun) as (-> & _).
    exists w1. reflexivity.
Defined.

(** ** executeSubscription *)

(** C8 (amended). [executeSubscription] does not look at the caller. It
    fails when the agent does not exist, when the subscription is inactive
    (a subscription that was never created is), when it has no merchant, and
    when [now < nextExecutionAt]. On an eligible call it stores
    [nextExecutionAt = uint64(now + periodSeconds)], counted from the time
    of the call and not from the previous due time, and only then runs the
    payment pipeline with the subscription's merchant and
    [amountPerPeriod]. *)
Theorem executeSubscription_spec (E : env)
  (call : address -> bytes -> world -> option world)
  (agentId subscriptionId : N) (data : bytes) (w : world) :
  let sub := subscription_at w agentId subscriptionId in
  let now := block_timestamp E in
  (forall anyone,
     executeSubscription E call agentId subscriptionId data w =
     executeSubscription
       {| this := this E; block_timestamp := now; msg_sender := anyone |}
       call agentId subscriptionId data w) /\
  (owner (agent_at w agentId) = 0 ->
   frame (executeSubscription E call agentId subscriptionId data) w
   = (inl AgentWallet__AgentNotFound, w)) /\
  (owner (agent_at w agentId) <> 0 -> _status (wallet w) <> _ENTERED ->
   sub_active sub = false ->
   frame (executeSubscription E call agentId subscriptionId data) w
   = (inl (Error "Subscription inactive"), w)) /\
  (owner (agent_at w agentId) <> 0 -> _status (wallet w) <> _ENTERED ->
   sub_active sub = true -> merchant sub = 0 ->
   frame (executeSubscription E call agentId subscriptionId data) w
   = (inl (Error "Subscription not found"), w)) /\
  (owner (agent_at w agentId) <> 0 -> _status (wallet w) <> _ENTERED ->
   sub_active sub = true -> merchant sub <> 0 ->
   now < nextExecutionAt sub ->
   frame (executeSubscription E call agentId subscriptionId data) w
   = (inl (Error "Too early"), w)) /\
  (owner (agent_at w agentId) <> 0 -> _status (wallet w) <> _ENTERED ->
   sub_active sub = true -> merchant sub <> 0 ->
   nextExecutionAt sub <= now ->
   now + periodSeconds sub <= MAX_UINT256 ->
   let w1 :=
     with_wallet
       (set_subscription agentId subscriptionId (advanced now sub))
       (with_wallet (set_status _ENTERED) w) in
   nextExecutionAt (subscription_at w1 agentId subscriptionId)
   = uint64 (now + periodSeconds sub) /\
   executeSubscription E call agentId subscriptionId data w =
   match
     _processPayment E call agentId (merchant sub) (amountPerPeriod sub)
       data w1
   with
   | Done _ w2 =>
       Done tt
         (with_wallet (set_status _NOT_ENTERED)
            (log_event
               (SubscriptionExecuted agentId subscriptionId
                  (amountPerPeriod
                     (subscription_at w2 agentId subscriptionId)))
               w2))
   | Reverted e w2 => Reverted e w2
   end).
Proof.
  cbv zeta. split; [intros anyone; reflexivity |].
  unfold frame, executeSubscription, advanced.
  repeat split; intros.
  1-4: run_checks; reflexivity.
  - wsimpl. reflexivity.
  - run_checks.
    match goal with |- context [_processPayment ?a ?b ?c ?d ?e ?f ?g] =>
      destruct (_processPayment a b c d e f g) end; reflexivity.
Qed.

Lemma executeSubscription_spec_witness :
  frame (executeSubscription Late.E Paying.no_callee 9 1 []) Late.w
  = (inl AgentWallet__AgentNotFound, Late.w) /\
  frame (executeSubscription Late.E Paying.no_callee 1 7 []) Late.w
  = (inl (Error "Subscription inactive"), Late.w) /\
  frame (executeSubscription Late.E Paying.no_callee 1 9 []) Corner.orphan
  = (inl (Error "Subscription not found"), Corner.orphan) /\
  frame (executeSubscription (Corner.delegate_env 50) Paying.no_callee 1 1 [])
    Late.w
  = (inl (Error "Too early"), Late.w) /\
  nextExecutionAt
    (subscription_at
       (with_wallet
          (set_subscription 1 1 (advanced 1000 (subscription_at Late.w 1 1)))
          (with_wallet (set_status _ENTERED) Late.w))
       1 1)
  = uint64 (1000 + 60).
Proof.
  repeat apply conj.
  - destruct (executeSubscription_spec Late.E Paying.no_callee 9 1 [] Late.w)
      as (_ & H & _). apply H; by_computation.
  - destruct (executeSubscription_spec Late.E Paying.no_callee 1 7 [] Late.w)
      as (_ & _ & H & _). apply H; by_computation.
  - destruct (executeSubscription_spec Late.E Paying.no_callee 1 9 []
                Corner.orphan) as (_ & _ & _ & H & _). apply H; by_computation.
  - destruct (executeSubscription_spec (Corner.delegate_env 50) Paying.no_callee
                1 1 [] Late.w) as (_ & _ & _ & _ & H & _).
    apply H; by_computation.
  - destruct (executeSubscription_spec Late.E Paying.no_callee 1 1 [] Late.w)
      as (_ & _ & _ & _ & _ & H).
    eapply proj1. apply H; by_computation.
Defined.

(** C8 as the specification words it does not hold here: the subscription
    was due at 100 with a period of 60, it is executed at time 1000, and the
    next due time becomes 1060, not 160. *)
Lemma executeSubscription_counts_from_now :
  let w := Late.w in
  let r := run Scenario.wallet_addr 1000 Late.execute w in
  nextExecutionAt (subscription_at w 1 1) = 100 /\
  periodSeconds (subscription_at w 1 1) = 60 /\
  fst r = inr tt /\
  nextExecutionAt (subscription_at (snd r) 1 1) = 1060 /\
  nextExecutionAt (subscription_at (snd r) 1 1)
  <> nextExecutionAt (subscription_at w 1 1)
     + periodSeconds (subscription_at w 1 1).
Proof.
  cbv zeta. repeat split; by_computation.
Qed.

